(** * System monitor: a shallow embedding of [system_monitor.py]

    The program samples CPU, memory, disk, network and process figures
    through [psutil], gathers them in one dictionary, appends that
    dictionary to a log file, prints a summary and sleeps; it repeats until
    the user interrupts it.

    Modelling choices.
    - A Python call that may raise returns a [result]; exceptions are the
      classes the program names, with Python's subclass relation.
    - What [psutil] answers during one sampling pass is a [psutil.Platform]
      record, one field per query the program makes.
    - Python [int]s are [Z].  A finite Python [float] that the library
      hands over is the rational it denotes ([Q]); comparisons of finite
      floats agree with those of [Q].  A float made by [round(_, 2)] is
      kept as the two-decimal figure it is written as: [json.dumps] and the
      f-strings emit the shortest decimal that reads back as the float, and
      for the double nearest to [k/100] that decimal is [k/100] itself.
    - The log file is taken to be creatable and writable, and the screen
      to accept what is printed: an [OSError] out of [touch], [open] or
      [print] is not modelled.
    - A dictionary with a fixed set of literal keys is a record whose fields
      are the keys; the dictionary filled in a loop ([disk_info]) is an
      insertion-ordered association list with Python's update rule.
    - Text produced by formatting ([isoformat], [json.dumps], f-strings) is
      kept symbolic: a list of [piece]s. *)

From Stdlib Require Import ZArith QArith Qround Lqa Lia List Sorting.Sorted.
From stdpp Require Import base list strings gmap sorting.

Open Scope Z_scope.

(** ** Python exceptions and fallible computations *)

Module Py.

(** The exception classes that matter to the program: the ones it catches
    and the ones the library raises. *)
Inductive exn : Type :=
| OSError
| PermissionError      (* subclass of OSError *)
| FileNotFoundError    (* subclass of OSError *)
| PsutilError          (* psutil.Error *)
| NoSuchProcess        (* subclass of psutil.Error *)
| ZombieProcess        (* subclass of psutil.NoSuchProcess *)
| AccessDenied         (* subclass of psutil.Error *)
| KeyError
| TypeError
| AttributeError
| KeyboardInterrupt
| RuntimeError.

(** [isinstance e c]: an exception of class [e] is caught by
    [except c]. *)
Definition isinstance (e c : exn) : bool :=
  match c, e with
  | OSError, (OSError | PermissionError | FileNotFoundError) => true
  | PermissionError, PermissionError => true
  | FileNotFoundError, FileNotFoundError => true
  | PsutilError, (PsutilError | NoSuchProcess | ZombieProcess | AccessDenied) => true
  | NoSuchProcess, (NoSuchProcess | ZombieProcess) => true
  | ZombieProcess, ZombieProcess => true
  | AccessDenied, AccessDenied => true
  | KeyError, KeyError => true
  | TypeError, TypeError => true
  | AttributeError, AttributeError => true
  | KeyboardInterrupt, KeyboardInterrupt => true
  | RuntimeError, RuntimeError => true
  | _, _ => false
  end.

(** [except (c1, c2, ...)] *)
Definition caught_by (cs : list exn) (e : exn) : bool :=
  existsb (isinstance e) cs.
Arguments caught_by : simpl never.

Inductive result (A : Type) : Type :=
| Return (a : A)
| Raise (e : exn).
Arguments Return {A} a.
Arguments Raise {A} e.

Definition bind {A B : Type} (r : result A) (k : A -> result B) : result B :=
  match r with
  | Return a => k a
  | Raise e => Raise e
  end.

Definition returns {A : Type} (r : result A) : Prop :=
  exists a, r = Return a.

(** [round(n / d, 0)] on exact values: nearest integer, ties to even. *)
Definition round_half_even (n d : Z) : Z :=
  let q := n / d in
  let r := n mod d in
  if 2 * r <? d then q
  else if d <? 2 * r then q + 1
  else if Z.even q then q else q + 1.

(** [round(n / d, 2)] for integers [n] and [d > 0], as the figure it is
    written as.  The program only divides byte counts by [1024**3]; below
    [2**53] bytes that quotient is an exact float, and [round(_, 2)]
    answers the double nearest to [k/100], where [k] is the integer nearest
    to a hundred times the quotient, ties to even.  That double is written
    (by [json.dumps], by an f-string) as the decimal [k/100], which is the
    value kept here; the double itself may differ from it in its last
    binary place (below [2**53] bytes, by less than [2**-29]).  What is
    stated below of rounded sizes holds of the double as well: rounding to
    the nearest double keeps the order, and the distance to the exact
    quotient is bounded with room for that difference. *)
Definition round2 (n d : Z) : Q := Qmake (round_half_even (n * 100) d) 100.

(** [int(x)] for a float: truncation towards zero. *)
Definition int (x : Q) : Z :=
  if Qle_bool 0 x then Qfloor x else Qceiling x.

(** [a < b] on floats *)
Definition float_lt (a b : Q) : bool := negb (Qle_bool b a).

(** [l[:n]] *)
Definition slice_to {A : Type} (n : Z) (l : list A) : list A :=
  if 0 <=? n then take (Z.to_nat n) l
  else take (length l - Z.to_nat (- n))%nat l.

(** [sorted(l, key=key, reverse=reverse)].  Python's sort is stable, also
    with [reverse=True]: elements whose keys do not compare with [<]
    keep their order in [l].  A stable sort has one possible result, so
    insertion at the front-most admissible place gives it. *)
Section Sorted.
Context {A : Type} (key : A -> Q) (reverse : bool).

(** [goes_after x y]: [x], which came before [y] in the input, has to
    move behind [y]. *)
Definition goes_after (x y : A) : bool :=
  if reverse then float_lt (key x) (key y) else float_lt (key y) (key x).

Fixpoint insert_sorted (x : A) (l : list A) : list A :=
  match l with
  | [] => [x]
  | y :: ys => if goes_after x y then y :: insert_sorted x ys else x :: l
  end.

Definition sorted (l : list A) : list A := foldr insert_sorted [] l.
End Sorted.

(** An insertion-ordered dictionary with string keys. *)
Definition dict (V : Type) : Type := list (string * V).

Fixpoint dict_set {V : Type} (k : string) (v : V) (d : dict V) : dict V :=
  match d with
  | [] => [(k, v)]
  | (k', v') :: rest =>
      if String.eqb k' k then (k', v) :: rest else (k', v') :: dict_set k v rest
  end.

Fixpoint dict_get {V : Type} (k : string) (d : dict V) : option V :=
  match d with
  | [] => None
  | (k', v') :: rest => if String.eqb k' k then Some v' else dict_get k rest
  end.

Definition keys {V : Type} (d : dict V) : list string := map fst d.

End Py.

Import Py.

#[global] Instance result_ret : MRet result := @Return.
#[global] Instance result_bind : MBind result := fun A B k r => bind r k.

(** ** The library the program samples through *)

Module psutil.

Module svmem.
Record t : Type :=
  mk { total : Z; available : Z; percent : Q; used : Z; free : Z }.
End svmem.

Module sswap.
Record t : Type :=
  mk { total : Z; used : Z; free : Z; percent : Q }.
End sswap.

Module sdiskpart.
Record t : Type :=
  mk { device : string; mountpoint : string; fstype : string; opts : string }.
End sdiskpart.

Module sdiskusage.
Record t : Type :=
  mk { total : Z; used : Z; free : Z; percent : Q }.
End sdiskusage.

Module snetio.
Record t : Type :=
  mk { bytes_sent : Z; bytes_recv : Z; packets_sent : Z; packets_recv : Z;
       errin : Z; errout : Z; dropin : Z; dropout : Z }.
End snetio.

(** [proc.info] as filled by
    [process_iter(['pid', 'name', 'cpu_percent', 'memory_percent'])];
    the two metrics are taken to be numbers.  (Where the library could not
    read a metric it stores [None], and [sorted] then raises [TypeError];
    such a pass is outside this model, so the statements below about the
    lists of the process collector are about passes in which it returns.) *)
Module pinfo.
Record t : Type :=
  mk { pid : Z; name : string; cpu_percent : Q; memory_percent : Q }.
End pinfo.

(** What each query of one sampling pass answers. *)
Record Platform : Type := {
  cpu_percent : result Q;                    (* cpu_percent(interval=1) *)
  cpu_count_physical : result (option Z);    (* cpu_count(logical=False) *)
  cpu_count_logical : result (option Z);     (* cpu_count(logical=True) *)
  cpu_percent_percpu : result (list Q);      (* cpu_percent(percpu=True, interval=1) *)
  virtual_memory : result svmem.t;
  swap_memory : result sswap.t;
  disk_partitions : result (list sdiskpart.t);
  disk_usage : string -> result sdiskusage.t;
  net_io_counters : result (option snetio.t);   (* None: no interface *)
  (* the processes enumerated, each with the outcome of reading [.info] *)
  process_iter : result (list (result pinfo.t));
  boot_time : result Q;
  gethostname : result string;               (* socket.gethostname() *)
  platform_system : string                   (* platform.system() *)
}.

End psutil.

(** [datetime.isoformat()] of the instant [t] (seconds since the epoch). *)
Inductive isostring : Type := isoformat (t : Q).

(** ** The dictionaries the collectors build *)

Module CpuInfo.
Record t : Type :=
  mk { cpu_percent : Q; cpu_cores : option Z; cpu_threads : option Z;
       per_core_usage : list Q }.
End CpuInfo.

Module MemoryInfo.
Record t : Type :=
  mk { total_memory_gb : Q; used_memory_gb : Q; available_memory_gb : Q;
       memory_percent : Q; swap_total_gb : Q; swap_used_gb : Q }.
End MemoryInfo.

Module DiskEntry.
Record t : Type :=
  mk { mountpoint : string; total_gb : Q; used_gb : Q; free_gb : Q;
       percent_used : Q }.
End DiskEntry.

Module NetworkInfo.
Record t : Type :=
  mk { bytes_sent : Z; bytes_received : Z; packets_sent : Z;
       packets_received : Z }.
End NetworkInfo.

Module TopProcesses.
Record t : Type :=
  mk { top_cpu_processes : list psutil.pinfo.t;
       top_memory_processes : list psutil.pinfo.t }.
End TopProcesses.

Module SystemInfo.
Record t : Type :=
  mk { hostname : string; platform : string; boot_time : isostring;
       uptime_seconds : Z }.
End SystemInfo.

(** A value of the dictionary [monitor] returns. *)
Inductive Value : Type :=
| VTimestamp (s : isostring)
| VSystem (v : SystemInfo.t)
| VCpu (v : CpuInfo.t)
| VMemory (v : MemoryInfo.t)
| VDisk (v : dict DiskEntry.t)
| VNetwork (v : NetworkInfo.t)
| VProcesses (v : TopProcesses.t).

(** Formatted text, kept symbolic. *)
Inductive piece : Type :=
| Str (s : string)
| FloatRepr (x : Q)
| IntRepr (n : Z)
| NoneRepr
| IsoStr (s : isostring)
| JsonDumps (data : dict Value).       (* json.dumps(data, indent=2) *)

Definition text : Type := list piece.

Definition opt_int_repr (o : option Z) : piece :=
  match o with Some n => IntRepr n | None => NoneRepr end.

(** ** class SystemMonitor *)

Module SystemMonitor.

Import psutil.

Definition GiB : Z := 1024 ^ 3.

Record t : Type := { log_file : string }.

Definition get_cpu_info (p : Platform) : result CpuInfo.t :=
  cpu_percent ← cpu_percent p;
  cpu_cores ← cpu_count_physical p;
  cpu_threads ← cpu_count_logical p;
  per_core_usage ← cpu_percent_percpu p;
  mret (CpuInfo.mk cpu_percent cpu_cores cpu_threads per_core_usage).

Definition get_memory_info (p : Platform) : result MemoryInfo.t :=
  memory ← virtual_memory p;
  swap ← swap_memory p;
  mret {| MemoryInfo.total_memory_gb := round2 (svmem.total memory) GiB;
          MemoryInfo.used_memory_gb := round2 (svmem.used memory) GiB;
          MemoryInfo.available_memory_gb := round2 (svmem.available memory) GiB;
          MemoryInfo.memory_percent := svmem.percent memory;
          MemoryInfo.swap_total_gb := round2 (sswap.total swap) GiB;
          MemoryInfo.swap_used_gb := round2 (sswap.used swap) GiB |}.

Definition disk_entry (partition : sdiskpart.t) (usage : sdiskusage.t) : DiskEntry.t :=
  {| DiskEntry.mountpoint := sdiskpart.mountpoint partition;
     DiskEntry.total_gb := round2 (sdiskusage.total usage) GiB;
     DiskEntry.used_gb := round2 (sdiskusage.used usage) GiB;
     DiskEntry.free_gb := round2 (sdiskusage.free usage) GiB;
     DiskEntry.percent_used := sdiskusage.percent usage |}.

(** The [for partition in ...] loop of [get_disk_info]. *)
Fixpoint disk_loop (p : Platform) (partitions : list sdiskpart.t)
    (disk_info : dict DiskEntry.t) : result (dict DiskEntry.t) :=
  match partitions with
  | [] => Return disk_info
  | partition :: rest =>
      match disk_usage p (sdiskpart.mountpoint partition) with
      | Return usage =>
          disk_loop p rest
            (dict_set (sdiskpart.device partition) (disk_entry partition usage) disk_info)
      | Raise e =>
          if caught_by [PermissionError] e then disk_loop p rest disk_info
          else Raise e
      end
  end.

Definition get_disk_info (p : Platform) : result (dict DiskEntry.t) :=
  partitions ← disk_partitions p;
  disk_loop p partitions [].

(** [net_io.bytes_sent] on [None] raises [AttributeError]. *)
Definition get_network_info (p : Platform) : result NetworkInfo.t :=
  net_io ← net_io_counters p;
  match net_io with
  | None => Raise AttributeError
  | Some net_io =>
      mret {| NetworkInfo.bytes_sent := snetio.bytes_sent net_io;
              NetworkInfo.bytes_received := snetio.bytes_recv net_io;
              NetworkInfo.packets_sent := snetio.packets_sent net_io;
              NetworkInfo.packets_received := snetio.packets_recv net_io |}
  end.

(** The [for proc in ...] loop of [get_top_processes]. *)
Fixpoint process_loop (procs : list (result pinfo.t)) (processes : list pinfo.t)
    : result (list pinfo.t) :=
  match procs with
  | [] => Return processes
  | proc :: rest =>
      match proc with
      | Return info => process_loop rest (processes ++ [info])
      | Raise e =>
          if caught_by [NoSuchProcess; AccessDenied] e then process_loop rest processes
          else Raise e
      end
  end.

Definition get_top_processes (p : Platform) (top_n : Z) : result TopProcesses.t :=
  procs ← process_iter p;
  processes ← process_loop procs [];
  let top_cpu := slice_to top_n (sorted pinfo.cpu_percent true processes) in
  let top_memory := slice_to top_n (sorted pinfo.memory_percent true processes) in
  mret {| TopProcesses.top_cpu_processes := top_cpu;
          TopProcesses.top_memory_processes := top_memory |}.

Definition get_system_info (now : Q) (p : Platform) : result SystemInfo.t :=
  hostname ← gethostname p;
  boot ← boot_time p;
  boot' ← boot_time p;
  mret {| SystemInfo.hostname := hostname;
          SystemInfo.platform := platform_system p;
          SystemInfo.boot_time := isoformat boot;
          SystemInfo.uptime_seconds := int (now - boot') |}.

(** [monitor]: [now] is what [datetime.now()] reads during the pass. *)
Definition monitor (now : Q) (p : Platform) : result (dict Value) :=
  let timestamp := isoformat now in
  system ← get_system_info now p;
  cpu ← get_cpu_info p;
  memory ← get_memory_info p;
  disk ← get_disk_info p;
  network ← get_network_info p;
  processes ← get_top_processes p 5;
  mret [ ("timestamp"%string, VTimestamp timestamp);
         ("system"%string, VSystem system);
         ("cpu"%string, VCpu cpu);
         ("memory"%string, VMemory memory);
         ("disk"%string, VDisk disk);
         ("network"%string, VNetwork network);
         ("processes"%string, VProcesses processes) ].

End SystemMonitor.

(** ** The world the program acts on *)

(** [sigint = Some k]: the user's Ctrl+C arrives after [k] more steps of the
    program have completed; [None]: no signal is on its way.  The steps are
    the calls that can be observed from outside: one sampling pass, one
    write to the log, one [print], one [sleep]. *)
Record World : Type := {
  clock : Q;                       (* wall clock, seconds *)
  files : gmap string text;        (* path -> content *)
  stdout : list text;              (* one entry per [print] *)
  sigint : option nat
}.

Definition IO (A : Type) : Type := World -> World * result A.

Definition io_ret {A : Type} (a : A) : IO A := fun w => (w, Return a).

Definition io_bind {A B : Type} (m : IO A) (k : A -> IO B) : IO B :=
  fun w =>
    match m w with
    | (w', Return a) => k a w'
    | (w', Raise e) => (w', Raise e)
    end.

#[global] Instance IO_ret : MRet IO := @io_ret.
#[global] Instance IO_bind : MBind IO := fun A B k m => io_bind m k.

Definition lift {A : Type} (r : result A) : IO A := fun w => (w, r).

(** The start of every step: a signal that is due is delivered here, as a
    [KeyboardInterrupt] raised in place of the step. *)
Definition checkpoint : IO unit :=
  fun w =>
    match sigint w with
    | None => (w, Return tt)
    | Some (S k) =>
        ({| clock := clock w; files := files w; stdout := stdout w; sigint := Some k |},
         Return tt)
    | Some O =>
        ({| clock := clock w; files := files w; stdout := stdout w; sigint := None |},
         Raise KeyboardInterrupt)
    end.

Definition datetime_now : IO Q := fun w => (w, Return (clock w)).

(** Time going by while the program computes. *)
Definition elapse (d : Q) : IO unit :=
  fun w =>
    ({| clock := (clock w + d)%Q; files := files w; stdout := stdout w;
        sigint := sigint w |}, Return tt).

Definition put_stdout (t : text) : IO unit :=
  fun w =>
    ({| clock := clock w; files := files w; stdout := stdout w ++ [t];
        sigint := sigint w |}, Return tt).

(** [print(t)] *)
Definition print (t : text) : IO unit :=
  checkpoint;; put_stdout t.

(** [time.sleep(secs)]; [extra] is by how much the sleep overshoots. *)
Definition sleep (secs extra : Q) : IO unit :=
  checkpoint;; elapse (secs + extra).

(** [Path(path).touch(exist_ok=True)], for a path that can be created. *)
Definition touch (path : string) : IO unit :=
  fun w =>
    ({| clock := clock w;
        files := match files w !! path with
                 | Some _ => files w
                 | None => <[path := []]> (files w)
                 end;
        stdout := stdout w; sigint := sigint w |}, Return tt).

(** [f.write(t)] on a file opened with mode ['a'], for a path that can be
    opened. *)
Definition put_file (path : string) (t : text) : IO unit :=
  fun w =>
    ({| clock := clock w;
        files := <[path := default [] (files w !! path) ++ t]> (files w);
        stdout := stdout w; sigint := sigint w |}, Return tt).

(** [with open(path, 'a') as f: f.write(t)] *)
Definition append_file (path : string) (t : text) : IO unit :=
  checkpoint;; put_file path t.

Fixpoint for_each {A : Type} (l : list A) (body : A -> IO unit) : IO unit :=
  match l with
  | [] => mret tt
  | x :: rest => body x;; for_each rest body
  end.

Definition NL : string := String (Ascii.ascii_of_nat 10) EmptyString.

(** ["=" * 80] *)
Definition rule : string :=
  "================================================================================".

(** [d[k]] *)
Definition getitem {V : Type} (k : string) (d : dict V) : result V :=
  match dict_get k d with
  | Some v => Return v
  | None => Raise KeyError
  end.

Definition as_timestamp (v : Value) : result isostring :=
  match v with VTimestamp s => Return s | _ => Raise TypeError end.
Definition as_cpu (v : Value) : result CpuInfo.t :=
  match v with VCpu c => Return c | _ => Raise TypeError end.
Definition as_memory (v : Value) : result MemoryInfo.t :=
  match v with VMemory c => Return c | _ => Raise TypeError end.
Definition as_disk (v : Value) : result (dict DiskEntry.t) :=
  match v with VDisk c => Return c | _ => Raise TypeError end.
Definition as_processes (v : Value) : result TopProcesses.t :=
  match v with VProcesses c => Return c | _ => Raise TypeError end.

(** ** The methods that act on the world, and [main] *)

Module Monitor.

Import psutil SystemMonitor.

Definition ensure_log_file (self : SystemMonitor.t) : IO unit :=
  touch (log_file self).

(** [SystemMonitor(log_file)] *)
Definition init (log_file : string) : IO SystemMonitor.t :=
  let self := {| SystemMonitor.log_file := log_file |} in
  ensure_log_file self;; mret self.

Definition log_monitoring_data (self : SystemMonitor.t) (data : dict Value) : IO unit :=
  append_file (log_file self) [JsonDumps data; Str NL; Str rule; Str NL].

Definition print_summary (data : dict Value) : IO unit :=
  print [Str NL; Str rule];;
  timestamp ← lift (getitem "timestamp" data ≫= as_timestamp);
  print [Str "SYSTEM MONITORING REPORT - "; IsoStr timestamp];;
  print [Str rule];;
  cpu ← lift (getitem "cpu" data ≫= as_cpu);
  print [Str NL; Str "[CPU USAGE]"];;
  print [Str "  Overall: "; FloatRepr (CpuInfo.cpu_percent cpu); Str "%"];;
  print [Str "  Cores: "; opt_int_repr (CpuInfo.cpu_cores cpu); Str " physical, ";
         opt_int_repr (CpuInfo.cpu_threads cpu); Str " logical"];;
  mem ← lift (getitem "memory" data ≫= as_memory);
  print [Str NL; Str "[MEMORY USAGE]"];;
  print [Str "  Used: "; FloatRepr (MemoryInfo.used_memory_gb mem); Str " GB / ";
         FloatRepr (MemoryInfo.total_memory_gb mem); Str " GB (";
         FloatRepr (MemoryInfo.memory_percent mem); Str "%)"];;
  print [Str "  Available: "; FloatRepr (MemoryInfo.available_memory_gb mem); Str " GB"];;
  print [Str NL; Str "[DISK USAGE]"];;
  disk ← lift (getitem "disk" data ≫= as_disk);
  for_each disk (fun '(device, info) =>
    print [Str "  "; Str device; Str " ("; Str (DiskEntry.mountpoint info); Str ")"];;
    print [Str "    Used: "; FloatRepr (DiskEntry.used_gb info); Str " GB / ";
           FloatRepr (DiskEntry.total_gb info); Str " GB (";
           FloatRepr (DiskEntry.percent_used info); Str "%)"]);;
  print [Str NL; Str "[TOP PROCESSES BY CPU]"];;
  processes ← lift (getitem "processes" data ≫= as_processes);
  for_each (slice_to 3 (TopProcesses.top_cpu_processes processes)) (fun proc =>
    print [Str "  "; Str (pinfo.name proc); Str " (PID: "; IntRepr (pinfo.pid proc);
           Str ") - "; FloatRepr (pinfo.cpu_percent proc); Str "%"]);;
  print [Str NL; Str "[TOP PROCESSES BY MEMORY]"];;
  processes' ← lift (getitem "processes" data ≫= as_processes);
  for_each (slice_to 3 (TopProcesses.top_memory_processes processes')) (fun proc =>
    print [Str "  "; Str (pinfo.name proc); Str " (PID: "; IntRepr (pinfo.pid proc);
           Str ") - "; FloatRepr (pinfo.memory_percent proc); Str "%"]);;
  print [Str rule; Str NL].

(** What the surroundings supply to the [i]-th pass of the loop: the
    library's answers, the time the pass takes from its start to the call
    of [sleep], and by how much that sleep overshoots. *)
Record Env : Type := {
  platform_at : nat -> Platform;
  busy_at : nat -> Q;
  oversleep_at : nat -> Q
}.

(** [monitor.monitor()] as a step of the loop. *)
Definition sample (env : Env) (i : nat) : IO (dict Value) :=
  checkpoint;;
  now ← datetime_now;
  lift (monitor now (platform_at env i)).

(** The body of [while True], for the [i]-th pass. *)
Definition tick (self : SystemMonitor.t) (env : Env) (i : nat) : IO unit :=
  data ← sample env i;
  log_monitoring_data self data;;
  print_summary data;;
  elapse (busy_at env i);;
  sleep 5 (oversleep_at env i).

(** [while True: ...], cut after [fuel] passes.  The loop has no exit of
    its own: [Some e] is the exception that ended it, [None] says it was
    still running when the fuel ran out. *)
Fixpoint loop (self : SystemMonitor.t) (env : Env) (fuel i : nat) (w : World)
    : World * option exn :=
  match fuel with
  | O => (w, None)
  | S fuel' =>
      match tick self env i w with
      | (w', Return _) => loop self env fuel' (S i) w'
      | (w', Raise e) => (w', Some e)
      end
  end.

Definition stop_message : text := [Str NL; Str "Monitoring stopped by user"].

(** The statements of [main] before its [try]. *)
Definition startup : IO SystemMonitor.t :=
  monitor ← init "system_monitor.log";
  print [Str "System Monitoring Started"];;
  print [Str "Press Ctrl+C to stop monitoring"; Str NL];;
  mret monitor.

(** [main()]: [Some (Return tt)] when it returns, [Some (Raise e)] when
    it ends with the exception [e], [None] when the loop was cut. *)
Definition main (env : Env) (fuel : nat) (w : World) : World * option (result unit) :=
  match startup w with
  | (w1, Raise e) => (w1, Some (Raise e))
  | (w1, Return monitor) =>
      match loop monitor env fuel 0 w1 with
      | (w2, None) => (w2, None)
      | (w2, Some e) =>
          if isinstance e KeyboardInterrupt
          then match print stop_message w2 with
               | (w3, r) => (w3, Some r)
               end
          else (w2, Some (Raise e))
      end
  end.

End Monitor.

(** ** Sample hosts *)

Module Host.

Import psutil.

Definition GB : Z := 1000000000.

(** 16 GB of memory, 8 GB used, 10 GB available: the library reports
    (total - available) / total = 37.5 percent. *)
Definition memory : svmem.t :=
  svmem.mk (16 * GB) (10 * GB) 37.5 (8 * GB) (2 * GB).

Definition swap : sswap.t := sswap.mk (2 * GB) 0 (2 * GB) 0.

Definition usage : sdiskusage.t := sdiskusage.mk (500 * GB) (200 * GB) (300 * GB) 40.

(** Five mounts.  [/dev/sda2] is mounted twice (a bind mount); the usage
    query is refused for [/boot/efi] and [/mnt/secure]. *)
Definition partitions : list sdiskpart.t :=
  [ sdiskpart.mk "/dev/sda2" "/" "ext4" "rw";
    sdiskpart.mk "/dev/sda1" "/boot/efi" "vfat" "rw";
    sdiskpart.mk "/dev/sda2" "/home" "ext4" "rw";
    sdiskpart.mk "/dev/sdb1" "/mnt/secure" "ext4" "rw";
    sdiskpart.mk "/dev/sdc1" "/data" "ext4" "rw" ].

Definition usage_of (mountpoint : string) : result sdiskusage.t :=
  if (String.eqb mountpoint "/boot/efi" || String.eqb mountpoint "/mnt/secure")%bool
  then Raise PermissionError
  else Return usage.

(** Five mounts on five devices, the same two refused. *)
Definition partitions' : list sdiskpart.t :=
  [ sdiskpart.mk "/dev/sda2" "/" "ext4" "rw";
    sdiskpart.mk "/dev/sda1" "/boot/efi" "vfat" "rw";
    sdiskpart.mk "/dev/sda3" "/home" "ext4" "rw";
    sdiskpart.mk "/dev/sdb1" "/mnt/secure" "ext4" "rw";
    sdiskpart.mk "/dev/sdc1" "/data" "ext4" "rw" ].

Definition netio : snetio.t := snetio.mk 1000 2000 10 20 0 0 0 0.

Definition init_proc : pinfo.t := pinfo.mk 1 "init" 0 0.5.
Definition editor : pinfo.t := pinfo.mk 30 "vi" 1.5 2.
Definition shell : pinfo.t := pinfo.mk 40 "sh" 1.5 0.5.

(** The processes in the order the library enumerates them, which is by
    ascending pid; one of them is gone by the time it is read. *)
Definition procs : list (result pinfo.t) :=
  [ Return init_proc; Return editor; Raise NoSuchProcess; Return shell ].

Definition host : Platform := {|
  cpu_percent := Return 12.5%Q;
  cpu_count_physical := Return (Some 4);
  cpu_count_logical := Return (Some 8);
  cpu_percent_percpu := Return [10; 15]%Q;
  virtual_memory := Return memory;
  swap_memory := Return swap;
  disk_partitions := Return partitions;
  disk_usage := usage_of;
  net_io_counters := Return (Some netio);
  process_iter := Return procs;
  boot_time := Return 1000%Q;
  gethostname := Return "box"%string;
  platform_system := "Linux"
|}.

(** The same host with other mounts. *)
Definition with_partitions (parts : list sdiskpart.t) (p : Platform) : Platform := {|
  cpu_percent := cpu_percent p;
  cpu_count_physical := cpu_count_physical p;
  cpu_count_logical := cpu_count_logical p;
  cpu_percent_percpu := cpu_percent_percpu p;
  virtual_memory := virtual_memory p;
  swap_memory := swap_memory p;
  disk_partitions := Return parts;
  disk_usage := disk_usage p;
  net_io_counters := net_io_counters p;
  process_iter := process_iter p;
  boot_time := boot_time p;
  gethostname := gethostname p;
  platform_system := platform_system p
|}.

(** The same host, where reading the CPU times is refused. *)
Definition restricted (p : Platform) : Platform := {|
  cpu_percent := Raise PermissionError;
  cpu_count_physical := cpu_count_physical p;
  cpu_count_logical := cpu_count_logical p;
  cpu_percent_percpu := Raise PermissionError;
  virtual_memory := virtual_memory p;
  swap_memory := swap_memory p;
  disk_partitions := disk_partitions p;
  disk_usage := disk_usage p;
  net_io_counters := net_io_counters p;
  process_iter := process_iter p;
  boot_time := boot_time p;
  gethostname := gethostname p;
  platform_system := platform_system p
|}.

(** Every pass sees [host], takes two seconds, and sleeps exactly. *)
Definition env : Monitor.Env := {|
  Monitor.platform_at := fun _ => host;
  Monitor.busy_at := fun _ => 2%Q;
  Monitor.oversleep_at := fun _ => 0%Q
|}.

Definition world (signal : option nat) : World :=
  {| clock := 2000; files := ∅; stdout := []; sigint := signal |}.

End Host.

(** ** Vocabulary of the statements *)

Module Spec.

Import psutil SystemMonitor Monitor.

(** The usage query of a mount answers. *)
Definition accessible (p : Platform) (part : sdiskpart.t) : bool :=
  match disk_usage p (sdiskpart.mountpoint part) with
  | Return _ => true
  | Raise _ => false
  end.

Definition accessible_mounts (p : Platform) (parts : list sdiskpart.t)
    : list sdiskpart.t :=
  List.filter (accessible p) parts.

(** No usage query of [parts] fails with anything but a permission error. *)
Definition only_permission_failures (p : Platform) (parts : list sdiskpart.t) : Prop :=
  forall part e,
    part ∈ parts ->
    disk_usage p (sdiskpart.mountpoint part) = Raise e ->
    caught_by [PermissionError] e = true.

(** The entry of the last accessible mount of [parts] on device [d]. *)
Fixpoint last_entry (p : Platform) (d : string) (parts : list sdiskpart.t)
    : option DiskEntry.t :=
  match parts with
  | [] => None
  | part :: rest =>
      match last_entry p d rest with
      | Some entry => Some entry
      | None =>
          if decide (sdiskpart.device part = d) then
            match disk_usage p (sdiskpart.mountpoint part) with
            | Return usage => Some (disk_entry part usage)
            | Raise _ => None
            end
          else None
      end
  end.

(** [forallb] form of [only_permission_failures], for concrete hosts. *)
Definition only_permission_failures_b (p : Platform) (parts : list sdiskpart.t) : bool :=
  forallb (fun part =>
             match disk_usage p (sdiskpart.mountpoint part) with
             | Return _ => true
             | Raise e => caught_by [PermissionError] e
             end) parts.

(** The processes whose [.info] could be read, in enumeration order. *)
Definition population (procs : list (result pinfo.t)) : list pinfo.t :=
  omap (fun proc => match proc with Return info => Some info | Raise _ => None end) procs.


(** The elements of [l] whose key is [v], in the order of [l]. *)
Definition with_key {A : Type} (key : A -> Q) (v : Q) (l : list A) : list A :=
  List.filter (fun a => Qeq_bool (key a) v) l.


(** The exception a computation ends with, if it ends with one. *)
Definition failure {A : Type} (r : result A) : option exn :=
  match r with
  | Return _ => None
  | Raise e => Some e
  end.

(** The same for a step inside [try: ... except classes: continue]: an
    exception of one of the [classes] is no failure of the loop. *)
Definition uncaught {A : Type} (classes : list exn) (r : result A) : option exn :=
  match r with
  | Return _ => None
  | Raise e => if caught_by classes e then None else Some e
  end.

(** The failure of the first step that fails, for steps taken in order. *)
Fixpoint first_failure (steps : list (option exn)) : option exn :=
  match steps with
  | [] => None
  | Some e :: _ => Some e
  | None :: rest => first_failure rest
  end.

(** The resource domains as the specification names them: one collector
    each. *)
Definition resource_domains : list string :=
  [ "cpu"; "memory"; "disk"; "network"; "processes" ]%string.

(** The entries of a snapshot other than its timestamp. *)
Definition domains (data : dict Value) : dict Value :=
  List.filter (fun '(k, _) => negb (String.eqb k "timestamp")) data.

(** A world on which no signal is on its way and nothing was printed. *)
Definition quiet : World :=
  {| clock := 0; files := ∅; stdout := []; sigint := None |}.

(** The texts [print_summary] prints when nothing interrupts it, one per
    call of [print]. *)
Definition summary_lines (data : dict Value) : list text :=
  stdout (print_summary data quiet).1.

(** What [log_monitoring_data] writes for one snapshot. *)
Definition log_record (data : dict Value) : text :=
  [JsonDumps data; Str NL; Str rule; Str NL].

Definition content (path : string) (w : World) : text :=
  default [] (files w !! path).

(** The observable steps of one pass: the sampling, the write to the log,
    the prints, the sleep. *)
Definition steps_of (data : dict Value) : nat :=
  (2 + length (summary_lines data) + 1)%nat.

(** Time from the start of pass [i] to the start of pass [i + n]. *)
Fixpoint elapsed (env : Env) (i n : nat) : Q :=
  match n with
  | O => 0
  | S n' => busy_at env i + 5 + oversleep_at env i + elapsed env (S i) n'
  end.

(** [m] does nothing but print the texts [lines], one call of [print]
    each, one after the other. *)
Definition script (m : IO unit) (lines : list text) : Prop :=
  forall w, m w = for_each lines print w.

Definition is_script (m : IO unit) : Prop := exists lines, script m lines.

End Spec.

(** ** Further vocabulary: what the methods leave alone, what they print *)

Module Behaviour.

Import psutil SystemMonitor Monitor Spec.

(** The path [main] logs to. *)
Definition log_path : string := "system_monitor.log".

(** The two lines [main] prints before its loop. *)
Definition banner : list text :=
  [ [Str "System Monitoring Started"];
    [Str "Press Ctrl+C to stop monitoring"; Str NL] ].

(** [m] changes nothing but the screen and the pending signal, and what was
    on the screen stays there. *)
Definition only_prints {A : Type} (m : IO A) : Prop :=
  forall w w' r,
    m w = (w', r) ->
    clock w' = clock w /\ files w' = files w /\ stdout w `prefix_of` stdout w'.

(** [m] calls [print] [n] times when nothing interrupts it. *)
Definition prints (m : IO unit) (n : nat) : Prop :=
  exists lines, script m lines /\ length lines = n.

(** The keys of [l], each once, in the order in which each is first seen. *)
Fixpoint first_seen (l : list string) : list string :=
  match l with
  | [] => []
  | x :: rest => x :: filter (fun y => y <> x) (first_seen rest)
  end.

(** The world with what one more step of a pending signal's countdown
    leaves of it. *)
Definition after_step (w : World) : World :=
  {| clock := clock w; files := files w; stdout := stdout w;
     sigint := Nat.pred <$> sigint w |}.

(** The first pass sees [host]; from the second on the CPU times are
    refused. *)
Definition failing_env : Env := {|
  platform_at := fun i => match i with O => Host.host | S _ => Host.restricted Host.host end;
  busy_at := fun _ => 2%Q;
  oversleep_at := fun _ => 0%Q
|}.

End Behaviour.

Import psutil SystemMonitor Monitor Spec.

(** * Proofs *)

(** ** Fallible computations and rounding *)

Lemma bind_Return_inv {A B : Type} (r : result A) (k : A -> result B) (b : B) :
  r ≫= k = Return b -> exists a, r = Return a /\ k a = Return b.
Proof. destruct r as [a|e]; simpl; [eauto | discriminate]. Qed.

Lemma returns_bind {A B : Type} (r : result A) (k : A -> result B) :
  returns (r ≫= k) <-> exists a, r = Return a /\ returns (k a).
Proof.
  split.
  - intros [b Hb]. apply bind_Return_inv in Hb as (a & Ha & Hk).
    exists a. split; [done | by exists b].
  - intros (a & -> & Hk). exact Hk.
Qed.

Lemma round_half_even_near (n d : Z) :
  0 < d -> 2 * Z.abs (round_half_even n d * d - n) <= d.
Proof.
  intros Hd. unfold round_half_even.
  pose proof (Z.div_mod n d ltac:(lia)) as Hdm.
  pose proof (Z.mod_pos_bound n d Hd) as Hr.
  repeat case_match; try apply Z.ltb_lt in H; try apply Z.ltb_ge in H;
    try apply Z.ltb_lt in H0; try apply Z.ltb_ge in H0; nia.
Qed.

Lemma round2_near (n d : Z) :
  0 < d ->
  (inject_Z n / inject_Z d - (1 # 200) <= round2 n d)%Q /\
  (round2 n d <= inject_Z n / inject_Z d + (1 # 200))%Q.
Proof.
  intros Hd. pose proof (round_half_even_near (n * 100) d Hd) as Hn.
  unfold round2. set (m := round_half_even (n * 100) d) in *.
  destruct d as [|pd|pd]; try lia.
  rewrite <- Qmake_Qdiv.
  unfold Qle, Qminus, Qplus, Qopp; simpl.
  split; nia.
Qed.

(** ** Dictionaries *)

Section Dict.
Context {V : Type}.
Implicit Types (d : dict V) (k j : string) (v : V).

Lemma dict_get_set k j v d :
  dict_get j (dict_set k v d) = if decide (k = j) then Some v else dict_get j d.
Proof.
  induction d as [|[k' v'] d IH]; simpl.
  - destruct (String.eqb_spec k j); case_decide; congruence.
  - destruct (String.eqb_spec k' k) as [->|Hk]; simpl.
    + destruct (String.eqb_spec k j); case_decide; congruence.
    + rewrite IH. destruct (String.eqb_spec k' j); case_decide; congruence.
Qed.

Lemma dict_get_None k d : dict_get k d = None <-> k ∉ keys d.
Proof.
  unfold keys. induction d as [|[k' v'] d IH]; simpl.
  - split; [intros _; apply not_elem_of_nil | done].
  - rewrite not_elem_of_cons. destruct (String.eqb_spec k' k) as [->|Hk].
    + split; [intros ?; discriminate | intros [? _]; congruence].
    + rewrite IH. split; [intros ?; split; congruence | intros [_ ?]; done].
Qed.

Lemma keys_dict_set k v d :
  keys (dict_set k v d) = if decide (k ∈ keys d) then keys d else keys d ++ [k].
Proof.
  unfold keys. induction d as [|[k' v'] d IH]; simpl.
  - done.
  - destruct (String.eqb_spec k' k) as [->|Hk]; simpl.
    + rewrite decide_True; [done | apply elem_of_cons; by left].
    + rewrite IH. destruct (decide (k ∈ map fst d)) as [Hin|Hin].
      * rewrite decide_True; [done | apply elem_of_cons; by right].
      * rewrite decide_False; [done |].
        rewrite elem_of_cons. intros [?|?]; congruence.
Qed.

Lemma elem_of_keys_dict_set k j v d :
  j ∈ keys (dict_set k v d) <-> j = k \/ j ∈ keys d.
Proof.
  rewrite keys_dict_set. case_decide as H.
  - split; [by right | intros [->|?]; done].
  - rewrite elem_of_app, list_elem_of_singleton. tauto.
Qed.

Lemma NoDup_keys_dict_set k v d : NoDup (keys d) -> NoDup (keys (dict_set k v d)).
Proof.
  intros Hd. rewrite keys_dict_set. case_decide as H; [done |].
  apply NoDup_app. split; [done |]. split; [| apply NoDup_singleton].
  intros x Hx Hx'. apply list_elem_of_singleton in Hx' as ->. done.
Qed.
End Dict.

(** ** The disk loop *)

Lemma length_keys {V : Type} (d : dict V) : length (keys d) = length d.
Proof. apply length_map. Qed.

Lemma accessible_true p part :
  accessible p part = true <-> exists usage, disk_usage p (sdiskpart.mountpoint part) = Return usage.
Proof.
  unfold accessible. destruct (disk_usage p _) as [u|e].
  - split; [eauto | done].
  - split; [done | intros [? ?]; done].
Qed.

Lemma disk_loop_returns p parts d0 :
  only_permission_failures p parts -> returns (disk_loop p parts d0).
Proof.
  revert d0. induction parts as [|part rest IH]; intros d0 Hperm; simpl.
  - by exists d0.
  - assert (only_permission_failures p rest) as Hrest.
    { intros part' e Hin. apply Hperm. by apply elem_of_cons; right. }
    destruct (disk_usage p (sdiskpart.mountpoint part)) as [u|e] eqn:Hu.
    + by apply IH.
    + rewrite (Hperm part e); [by apply IH | apply elem_of_cons; by left | done].
Qed.

Lemma disk_loop_returns_inv p parts d0 :
  returns (disk_loop p parts d0) -> only_permission_failures p parts.
Proof.
  revert d0. induction parts as [|part rest IH]; intros d0 Hret part' e Hin Hu.
  - by apply elem_of_nil in Hin.
  - simpl in Hret. apply elem_of_cons in Hin as [-> | Hin].
    + rewrite Hu in Hret. destruct (caught_by [PermissionError] e); [done |].
      by destruct Hret.
    + destruct (disk_usage p (sdiskpart.mountpoint part)) as [u|e'].
      * by apply (IH _ Hret part' e).
      * destruct (caught_by [PermissionError] e'); [| by destruct Hret].
        by apply (IH _ Hret part' e).
Qed.

Lemma disk_loop_inv p parts d0 disk :
  disk_loop p parts d0 = Return disk ->
  (forall k, dict_get k disk
             = match last_entry p k parts with
               | Some entry => Some entry
               | None => dict_get k d0
               end) /\
  (forall k, k ∈ keys disk <->
             k ∈ keys d0 \/ k ∈ map sdiskpart.device (accessible_mounts p parts)) /\
  (NoDup (keys d0) -> NoDup (keys disk)).
Proof.
  revert d0. induction parts as [|part rest IH]; intros d0; simpl.
  - intros [= <-]. split_and!; [done | | done].
    intros k. rewrite elem_of_nil. tauto.
  - unfold accessible at 1.
    destruct (disk_usage p (sdiskpart.mountpoint part)) as [u|e] eqn:Hu.
    + intros Hloop. apply IH in Hloop as (Hget & Hkeys & Hnd). split_and!.
      * intros k. rewrite Hget, dict_get_set.
        destruct (last_entry p k rest); [done |]. by case_decide.
      * intros k. rewrite Hkeys, elem_of_keys_dict_set. simpl.
        rewrite elem_of_cons. fold (accessible_mounts p rest). tauto.
      * intros Hd0. by apply Hnd, NoDup_keys_dict_set.
    + destruct (caught_by [PermissionError] e); [| discriminate].
      intros Hloop. apply IH in Hloop as (Hget & Hkeys & Hnd). split_and!.
      * intros k. rewrite Hget.
        destruct (last_entry p k rest); [done |]. by case_decide.
      * intros k. rewrite Hkeys. fold (accessible_mounts p rest). done.
      * done.
Qed.

Lemma get_disk_info_inv p disk :
  get_disk_info p = Return disk ->
  exists parts,
    disk_partitions p = Return parts /\
    (forall k, dict_get k disk = last_entry p k parts) /\
    NoDup (keys disk) /\
    (forall k, k ∈ keys disk <-> k ∈ map sdiskpart.device (accessible_mounts p parts)) /\
    length disk
    = size (list_to_set (map sdiskpart.device (accessible_mounts p parts)) : gset string).
Proof.
  unfold get_disk_info. intros H. apply bind_Return_inv in H as (parts & Hparts & Hloop).
  exists parts. apply disk_loop_inv in Hloop as (Hget & Hkeys & Hnd).
  assert (forall k, k ∈ keys disk <-> k ∈ map sdiskpart.device (accessible_mounts p parts))
    as Hkeys'.
  { intros k. rewrite Hkeys. simpl. rewrite elem_of_nil. tauto. }
  specialize (Hnd (NoDup_nil_2)).
  split_and!; [done | | done | done |].
  - intros k. rewrite Hget. by destruct (last_entry p k parts).
  - rewrite <- length_keys, <- (size_list_to_set (C := gset string)) by done.
    f_equal. apply set_eq. intros k. rewrite !elem_of_list_to_set. apply Hkeys'.
Qed.

Lemma size_list_to_set_le (l : list string) :
  (size (list_to_set l : gset string) <= length l)%nat.
Proof.
  induction l as [|x l IH]; [done |].
  rewrite list_to_set_cons. simpl.
  destruct (decide (x ∈ (list_to_set l : gset string))) as [Hin|Hin].
  - rewrite (subseteq_union_1_L {[x]} (list_to_set l))
      by (by apply singleton_subseteq_l).
    lia.
  - rewrite size_union by (by apply disjoint_singleton_l).
    rewrite size_singleton. lia.
Qed.

Lemma size_list_to_set_lt (l : list string) :
  ~ NoDup l -> (size (list_to_set l : gset string) < length l)%nat.
Proof.
  induction l as [|x l IH]; intros Hnd.
  - destruct Hnd. constructor.
  - rewrite list_to_set_cons. simpl. destruct (decide (x ∈ l)) as [Hin|Hin].
    + rewrite (subseteq_union_1_L {[x]} (list_to_set l))
        by (by apply singleton_subseteq_l, elem_of_list_to_set).
      pose proof (size_list_to_set_le l). lia.
    + assert (~ NoDup l) as Hl by (intros ?; apply Hnd; by constructor).
      apply IH in Hl.
      rewrite size_union by (by apply disjoint_singleton_l; rewrite elem_of_list_to_set).
      rewrite size_singleton. lia.
Qed.

(** ** The process loop and sorting *)

Lemma only_permission_failures_check p parts :
  only_permission_failures_b p parts = true -> only_permission_failures p parts.
Proof.
  unfold only_permission_failures_b, only_permission_failures.
  rewrite forallb_forall. intros H part e Hin Hu.
  apply list_elem_of_In in Hin. specialize (H part Hin). by rewrite Hu in H.
Qed.

Lemma process_loop_inv procs acc processes :
  process_loop procs acc = Return processes -> processes = acc ++ population procs.
Proof.
  revert acc. induction procs as [|[info|e] rest IH]; intros acc; simpl.
  - intros [= <-]. by rewrite app_nil_r.
  - intros H. apply IH in H as ->. by rewrite <- app_assoc.
  - destruct (caught_by _ e); [apply IH | discriminate].
Qed.

(** Sorting *)
Section SortedFacts.
Context {A : Type} (key : A -> Q).

Lemma float_lt_spec (a b : Q) : float_lt a b = true <-> (a < b)%Q.
Proof.
  unfold float_lt. rewrite negb_true_iff. split.
  - intros H. apply Qnot_le_lt. intros Hle. apply Qle_bool_iff in Hle. congruence.
  - intros H. destruct (Qle_bool b a) eqn:E; [| done].
    apply Qle_bool_iff in E. exfalso. by apply (Qlt_not_le a b).
Qed.


Lemma insert_sorted_perm rev (x : A) l : insert_sorted key rev x l ≡ₚ x :: l.
Proof.
  induction l as [|y ys IH]; simpl; [done |].
  destruct (goes_after key rev x y); [| done].
  rewrite IH. apply Permutation_swap.
Qed.

Lemma sorted_perm rev (l : list A) : sorted key rev l ≡ₚ l.
Proof.
  induction l as [|x l IH]; simpl; [done |].
  rewrite insert_sorted_perm. by rewrite IH.
Qed.

Lemma length_sorted rev (l : list A) : length (sorted key rev l) = length l.
Proof. apply Permutation_length, sorted_perm. Qed.



Lemma with_key_insert_sorted v (x : A) l :
  with_key key v (insert_sorted key true x l) = with_key key v (x :: l).
Proof.
  unfold with_key. induction l as [|y ys IH]; simpl; [done |].
  destruct (float_lt (key x) (key y)) eqn:E; [| done].
  apply float_lt_spec in E. simpl. rewrite IH. simpl.
  destruct (Qeq_bool (key x) v) eqn:Ex, (Qeq_bool (key y) v) eqn:Ey; try done.
  apply Qeq_bool_iff in Ex, Ey. rewrite Ex, Ey in E. by apply Qlt_irrefl in E.
Qed.

(** Stability: elements with one key keep their order. *)
Lemma with_key_sorted v (l : list A) :
  with_key key v (sorted key true l) = with_key key v l.
Proof.
  induction l as [|x l IH]; simpl; [done |].
  rewrite with_key_insert_sorted. unfold with_key in *. simpl. by rewrite IH.
Qed.

Lemma with_key_take_prefix v n (l : list A) :
  with_key key v (take n l) `prefix_of` with_key key v l.
Proof.
  exists (with_key key v (drop n l)).
  unfold with_key. rewrite <- List.filter_app. by rewrite take_drop.
Qed.
End SortedFacts.

Lemma slice_to_take {A : Type} (n : Z) (l : list A) :
  0 <= n -> slice_to n l = take (Z.to_nat n) l.
Proof. intros Hn. unfold slice_to. by rewrite (proj2 (Z.leb_le 0 n) Hn). Qed.


Lemma get_top_processes_inv p top_n top :
  get_top_processes p top_n = Return top ->
  exists procs,
    process_iter p = Return procs /\
    TopProcesses.top_cpu_processes top
    = slice_to top_n (sorted pinfo.cpu_percent true (population procs)) /\
    TopProcesses.top_memory_processes top
    = slice_to top_n (sorted pinfo.memory_percent true (population procs)).
Proof.
  unfold get_top_processes. intros H.
  apply bind_Return_inv in H as (procs & Hprocs & H).
  apply bind_Return_inv in H as (processes & Hloop & H).
  apply process_loop_inv in Hloop. simpl in Hloop. subst processes.
  injection H as <-. by exists procs.
Qed.

(** The top-K list of one metric. *)
Section TopK.
Context (key : pinfo.t -> Q) (K : Z) (pop : list pinfo.t).
Hypothesis K_nonneg : 0 <= K.

Let top := slice_to K (sorted key true pop).




Lemma top_stable v : with_key key v top `prefix_of` with_key key v pop.
Proof.
  unfold top. rewrite slice_to_take by done.
  rewrite <- (with_key_sorted key v pop). apply with_key_take_prefix.
Qed.
End TopK.





(** C5, counterexample: with 16,000,000,000 bytes in total and 8,000,000,000
    used, the library reports 37.5 percent (it counts what is not
    available); the collector reports 37.5, not 50. *)
Lemma memory_percent_not_recomputed :
  svmem.total Host.memory = 16000000000 /\
  svmem.used Host.memory = 8000000000 /\
  exists info,
    get_memory_info Host.host = Return info /\
    MemoryInfo.memory_percent info = 37.5%Q /\
    ~ (MemoryInfo.memory_percent info == 50)%Q.
Proof.
  split; [reflexivity |]. split; [reflexivity |].
  eexists. split; [reflexivity |]. split; [reflexivity |]. discriminate.
Qed.

(** C5 (amended): the memory percent the collector reports is the [percent]
    field of the library's sample, copied as it is; it is not computed from
    [total] and [used]. *)
Theorem memory_percent_is_library_field (p : Platform) (memory : svmem.t) (swap : sswap.t) :
  virtual_memory p = Return memory ->
  swap_memory p = Return swap ->
  exists info,
    get_memory_info p = Return info /\
    MemoryInfo.memory_percent info = svmem.percent memory.
Proof.
  intros Hm Hs. unfold get_memory_info. rewrite Hm, Hs. simpl. by eexists.
Qed.

(** C5, witness: [host]. *)
Lemma memory_percent_is_library_field_witness :
  exists info,
    get_memory_info Host.host = Return info /\
    MemoryInfo.memory_percent info = svmem.percent Host.memory.
Proof.
  apply (memory_percent_is_library_field Host.host Host.memory Host.swap);
    reflexivity.
Defined.

(** C6, counterexample: 16,000,000,000 bytes of memory are recorded as a
    number between 14.89 and 14.91 (it is written 14.9), which is not the
    byte count, and one byte more is recorded as the same number. *)
Lemma sizes_not_in_bytes :
  exists info,
    get_memory_info Host.host = Return info /\
    svmem.total Host.memory = 16000000000 /\
    (14.89 < MemoryInfo.total_memory_gb info < 14.91)%Q /\
    ~ (MemoryInfo.total_memory_gb info == inject_Z (svmem.total Host.memory))%Q /\
    round2 (svmem.total Host.memory + 1) GiB = round2 (svmem.total Host.memory) GiB.
Proof.
  eexists. split; [reflexivity |]. split; [reflexivity |].
  split; [split; reflexivity |]. split; [discriminate | reflexivity].
Qed.

Lemma GiB_pos : 0 < GiB.
Proof. reflexivity. Qed.

(** C6 (amended): every size field of the memory dictionary and of a disk
    entry is the byte count divided by [1024**3] and rounded to two
    decimals, so for a byte count below [2**53] it is less than one
    hundredth away from the exact quotient; the byte count itself is not
    recorded. *)
Theorem sizes_in_rounded_gib (p : Platform) :
  (forall info, get_memory_info p = Return info ->
     exists memory swap,
       virtual_memory p = Return memory /\ swap_memory p = Return swap /\
       MemoryInfo.total_memory_gb info = round2 (svmem.total memory) GiB /\
       MemoryInfo.used_memory_gb info = round2 (svmem.used memory) GiB /\
       MemoryInfo.available_memory_gb info = round2 (svmem.available memory) GiB /\
       MemoryInfo.swap_total_gb info = round2 (sswap.total swap) GiB /\
       MemoryInfo.swap_used_gb info = round2 (sswap.used swap) GiB) /\
  (forall disk device entry,
     get_disk_info p = Return disk -> dict_get device disk = Some entry ->
     exists usage,
       disk_usage p (DiskEntry.mountpoint entry) = Return usage /\
       DiskEntry.total_gb entry = round2 (sdiskusage.total usage) GiB /\
       DiskEntry.used_gb entry = round2 (sdiskusage.used usage) GiB /\
       DiskEntry.free_gb entry = round2 (sdiskusage.free usage) GiB) /\
  (forall bytes : Z,
     0 <= bytes < 2 ^ 53 ->
     (inject_Z bytes / inject_Z GiB - (1 # 100) < round2 bytes GiB)%Q /\
     (round2 bytes GiB < inject_Z bytes / inject_Z GiB + (1 # 100))%Q).
Proof.
  split_and!.
  - intros info H. unfold get_memory_info in H.
    apply bind_Return_inv in H as (memory & Hm & H).
    apply bind_Return_inv in H as (swap & Hs & H).
    injection H as <-. exists memory, swap. by split_and!.
  - intros disk device entry Hd Hget.
    apply get_disk_info_inv in Hd as (parts & _ & Hlast & _).
    rewrite Hlast in Hget. clear Hlast.
    induction parts as [|part rest IH]; simpl in Hget; [discriminate |].
    destruct (last_entry p device rest) as [entry'|]; [by apply IH |].
    case_decide; [| discriminate].
    destruct (disk_usage p (sdiskpart.mountpoint part)) as [usage|e] eqn:Hu; [| discriminate].
    injection Hget as <-. exists usage. by split_and!.
  - intros bytes _. destruct (round2_near bytes GiB GiB_pos) as [Hlow Hhigh].
    split; lra.
Qed.

(** C6, witness: the memory of [host], 16,000,000,000 bytes in total. *)
Lemma sizes_in_rounded_gib_witness :
  exists info memory swap,
    get_memory_info Host.host = Return info /\
    virtual_memory Host.host = Return memory /\
    swap_memory Host.host = Return swap /\
    MemoryInfo.total_memory_gb info = round2 (svmem.total memory) GiB /\
    (round2 16000000000 GiB < inject_Z 16000000000 / inject_Z GiB + (1 # 100))%Q.
Proof.
  eexists.
  destruct (sizes_in_rounded_gib Host.host) as (Hmemory & _ & Hnear).
  destruct (Hmemory _ eq_refl) as (memory & swap & Hm & Hs & Ht & _).
  exists memory, swap. split; [reflexivity |]. split; [exact Hm |]. split; [exact Hs |].
  split; [exact Ht |]. apply (Hnear 16000000000). lia.
Defined.

(** The disk loop ends with the first failure of a usage query that is
    not a permission error. *)
Lemma disk_loop_failure (p : Platform) (parts : list sdiskpart.t) (d0 : dict DiskEntry.t) :
  failure (disk_loop p parts d0)
  = first_failure
      (map (fun part => uncaught [PermissionError]
                          (disk_usage p (sdiskpart.mountpoint part))) parts).
Proof.
  revert d0. induction parts as [|part parts IH]; intros d0; simpl; [done |].
  destruct (disk_usage p (sdiskpart.mountpoint part)) as [usage | e]; simpl.
  - apply IH.
  - destruct (caught_by [PermissionError] e); [apply IH | done].
Qed.

(** The process loop ends with the first failure of reading a process
    that is neither [NoSuchProcess] nor [AccessDenied]. *)
Lemma process_loop_failure (procs : list (result pinfo.t)) (acc : list pinfo.t) :
  failure (process_loop procs acc)
  = first_failure (map (uncaught [NoSuchProcess; AccessDenied]) procs).
Proof.
  revert acc. induction procs as [|[info | e] procs IH]; intros acc; simpl; [done | |].
  - apply IH.
  - destruct (caught_by [NoSuchProcess; AccessDenied] e); [apply IH | done].
Qed.

(** C1, counterexample: on a host that refuses the CPU times,
    [get_cpu_info] raises [PermissionError] and so does [monitor]; nothing
    catches the failure and no value stands for it. *)
Lemma failure_propagates :
  get_cpu_info (Host.restricted Host.host) = Raise PermissionError /\
  monitor 2000 (Host.restricted Host.host) = Raise PermissionError.
Proof. split; reflexivity. Qed.

(** C1 (amended): a collector does not turn a failure of the library into a
    value.  Every collector makes its queries in a fixed order and ends
    with the exception of the first query that fails, whichever query that
    is, and [monitor] ends with the exception of the first collector that
    fails.  Two failures are caught where they occur and are no failure of
    the collector: the permission error of one mount's usage query and the
    [NoSuchProcess] or [AccessDenied] of one process.  The network
    collector raises [AttributeError] itself when the library has no
    counters to report.  For the process collector the statement covers the
    enumeration and the loop over the processes, whose failure the
    collector ends with. *)
Theorem failures_propagate_unless_skipped (now : Q) (p : Platform) :
  failure (monitor now p)
  = first_failure [ failure (get_system_info now p); failure (get_cpu_info p);
                    failure (get_memory_info p); failure (get_disk_info p);
                    failure (get_network_info p); failure (get_top_processes p 5) ] /\
  failure (get_system_info now p)
  = first_failure [ failure (gethostname p); failure (boot_time p) ] /\
  failure (get_cpu_info p)
  = first_failure [ failure (cpu_percent p); failure (cpu_count_physical p);
                    failure (cpu_count_logical p); failure (cpu_percent_percpu p) ] /\
  failure (get_memory_info p)
  = first_failure [ failure (virtual_memory p); failure (swap_memory p) ] /\
  failure (get_disk_info p)
  = match disk_partitions p with
    | Raise e => Some e
    | Return parts =>
        first_failure
          (map (fun part => uncaught [PermissionError]
                              (disk_usage p (sdiskpart.mountpoint part))) parts)
    end /\
  failure (get_network_info p)
  = match net_io_counters p with
    | Raise e => Some e
    | Return None => Some AttributeError
    | Return (Some _) => None
    end /\
  (forall top_n,
     match process_iter p with
     | Raise e => get_top_processes p top_n = Raise e
     | Return procs =>
         failure (process_loop procs [])
         = first_failure (map (uncaught [NoSuchProcess; AccessDenied]) procs) /\
         (forall e, process_loop procs [] = Raise e ->
                    get_top_processes p top_n = Raise e)
     end).
Proof.
  split_and!.
  - unfold monitor.
    destruct (get_system_info now p); [| done].
    destruct (get_cpu_info p); [| done].
    destruct (get_memory_info p); [| done].
    destruct (get_disk_info p); [| done].
    destruct (get_network_info p); [| done].
    destruct (get_top_processes p 5); done.
  - unfold get_system_info.
    destruct (gethostname p); [| done]. destruct (boot_time p); done.
  - unfold get_cpu_info.
    destruct (cpu_percent p); [| done].
    destruct (cpu_count_physical p); [| done].
    destruct (cpu_count_logical p); [| done].
    destruct (cpu_percent_percpu p); done.
  - unfold get_memory_info.
    destruct (virtual_memory p); [| done]. destruct (swap_memory p); done.
  - unfold get_disk_info.
    destruct (disk_partitions p) as [parts | e]; [| done]. simpl.
    apply disk_loop_failure.
  - unfold get_network_info.
    destruct (net_io_counters p) as [[net_io |] | e]; done.
  - intros top_n. unfold get_top_processes.
    destruct (process_iter p) as [procs | e]; [| done]. split.
    + apply process_loop_failure.
    + intros e He. simpl. by rewrite He.
Qed.

(** C1, witness: on the restricted host the first query of the CPU
    collector is refused, and [monitor] ends with that refusal; on [host],
    where two mounts refuse their usage query, the disk collector does not
    fail. *)
Lemma failures_propagate_unless_skipped_witness :
  failure (monitor 2000 (Host.restricted Host.host)) = Some PermissionError /\
  failure (get_disk_info Host.host) = None.
Proof.
  split.
  - destruct (failures_propagate_unless_skipped 2000 (Host.restricted Host.host))
      as (Hmonitor & _ & Hcpu & _).
    rewrite Hmonitor, Hcpu. reflexivity.
  - destruct (failures_propagate_unless_skipped 2000 Host.host)
      as (_ & _ & _ & _ & Hdisk & _).
    rewrite Hdisk. reflexivity.
Defined.

(** ** Disk entries *)

Lemma last_entry_app_Some p d before l entry :
  last_entry p d l = Some entry -> last_entry p d (before ++ l) = Some entry.
Proof. intros H. induction before as [|x before IH]; simpl; [done |]. by rewrite IH. Qed.

Lemma last_entry_None p d l :
  (forall part, part ∈ l -> accessible p part = true -> sdiskpart.device part <> d) ->
  last_entry p d l = None.
Proof.
  induction l as [|x l IH]; intros H; simpl; [done |].
  rewrite IH by (intros part Hin; apply H; by apply elem_of_cons; right).
  case_decide as Hd; [| done].
  specialize (H x ltac:(apply elem_of_cons; by left)). unfold accessible in H.
  destruct (disk_usage p (sdiskpart.mountpoint x)); [| done]. by destruct H.
Qed.

Lemma last_entry_split p before part after usage :
  disk_usage p (sdiskpart.mountpoint part) = Return usage ->
  (forall part', part' ∈ after -> accessible p part' = true ->
                 sdiskpart.device part' <> sdiskpart.device part) ->
  last_entry p (sdiskpart.device part) (before ++ part :: after)
  = Some (disk_entry part usage).
Proof.
  intros Hu Hafter. apply last_entry_app_Some. simpl.
  rewrite (last_entry_None _ _ _ Hafter), Hu. by rewrite decide_True.
Qed.

(** C9: the disk dictionary is keyed by device.  A device occurs once among
    its keys; the entry under a device is that of the last accessible mount
    on it; there are at most as many entries as accessible mounts, and
    strictly fewer as soon as two accessible mounts share a device. *)
Theorem disk_info_keyed_by_device (p : Platform) (parts : list sdiskpart.t)
    (disk : dict DiskEntry.t) :
  disk_partitions p = Return parts ->
  get_disk_info p = Return disk ->
  NoDup (keys disk) /\
  (forall before part after usage,
     parts = before ++ part :: after ->
     disk_usage p (sdiskpart.mountpoint part) = Return usage ->
     (forall part', part' ∈ after -> accessible p part' = true ->
                    sdiskpart.device part' <> sdiskpart.device part) ->
     dict_get (sdiskpart.device part) disk = Some (disk_entry part usage)) /\
  (length disk <= length (accessible_mounts p parts))%nat /\
  (forall (i j : nat) (a b : sdiskpart.t),
     i <> j ->
     accessible_mounts p parts !! i = Some a ->
     accessible_mounts p parts !! j = Some b ->
     sdiskpart.device a = sdiskpart.device b ->
     (length disk < length (accessible_mounts p parts))%nat).
Proof.
  intros Hparts Hdisk.
  apply get_disk_info_inv in Hdisk as (parts' & Hparts' & Hget & Hnd & _ & Hlen).
  rewrite Hparts in Hparts'. injection Hparts' as <-.
  split_and!.
  - done.
  - intros before part after usage -> Hu Hafter. rewrite Hget. by apply last_entry_split.
  - rewrite Hlen. etrans; [apply size_list_to_set_le |]. by rewrite length_map.
  - intros i j a b Hij Ha Hb Hab. rewrite Hlen.
    rewrite <- (length_map sdiskpart.device (accessible_mounts p parts)).
    apply size_list_to_set_lt. intros Hdup. apply Hij.
    apply (proj1 (NoDup_alt _) Hdup i j (sdiskpart.device a)).
    + by rewrite list_lookup_fmap, Ha.
    + by rewrite list_lookup_fmap, Hb, Hab.
Qed.

(** C9, witness: [/dev/sda2] is mounted at [/] and at [/home]; the entry
    kept is the one of [/home]. *)
Lemma disk_info_keyed_by_device_witness :
  exists disk,
    get_disk_info Host.host = Return disk /\
    dict_get "/dev/sda2" disk
    = Some (disk_entry (sdiskpart.mk "/dev/sda2" "/home" "ext4" "rw") Host.usage) /\
    (length disk < length (accessible_mounts Host.host Host.partitions))%nat.
Proof.
  eexists.
  destruct (disk_info_keyed_by_device Host.host Host.partitions _ eq_refl eq_refl)
    as (_ & Hlast & _ & Hlt).
  split; [reflexivity |]. split.
  - apply (Hlast (take 2 Host.partitions) (sdiskpart.mk "/dev/sda2" "/home" "ext4" "rw")
             (drop 3 Host.partitions) Host.usage); [reflexivity | reflexivity |].
    intros part' Hin _.
    repeat (apply elem_of_cons in Hin as [-> | Hin]; [discriminate |]).
    by apply elem_of_nil in Hin.
  - apply (Hlt 0%nat 1%nat (sdiskpart.mk "/dev/sda2" "/" "ext4" "rw")
             (sdiskpart.mk "/dev/sda2" "/home" "ext4" "rw"));
      [lia | reflexivity | reflexivity | reflexivity].
Defined.

(** C3, counterexample: five mounts, two of them refused, the other three
    accessible; two of these three are on [/dev/sda2], and the result has
    two entries, not three. *)
Lemma fewer_entries_than_accessible_mounts :
  length Host.partitions = 5%nat /\
  length (accessible_mounts Host.host Host.partitions) = 3%nat /\
  only_permission_failures_b Host.host Host.partitions = true /\
  exists disk,
    get_disk_info Host.host = Return disk /\
    length disk = 2%nat /\
    length disk <> length (accessible_mounts Host.host Host.partitions).
Proof.
  split; [reflexivity |]. split; [reflexivity |]. split; [reflexivity |].
  eexists. split; [reflexivity |]. split; [reflexivity | discriminate].
Qed.

(** C3 (amended): when the usage queries that fail all fail with a
    permission error, the disk collector returns a dictionary (it does not
    raise); its keys are the devices of the accessible mounts, one entry per
    device; when the accessible mounts are on distinct devices there is
    one entry per accessible mount. *)
Theorem disk_partial_success (p : Platform) (parts : list sdiskpart.t) :
  disk_partitions p = Return parts ->
  only_permission_failures p parts ->
  exists disk,
    get_disk_info p = Return disk /\
    (forall device, device ∈ keys disk <->
                    device ∈ map sdiskpart.device (accessible_mounts p parts)) /\
    NoDup (keys disk) /\
    length disk
    = size (list_to_set (map sdiskpart.device (accessible_mounts p parts)) : gset string) /\
    (NoDup (map sdiskpart.device (accessible_mounts p parts)) ->
     length disk = length (accessible_mounts p parts)).
Proof.
  intros Hparts Hperm.
  destruct (disk_loop_returns p parts [] Hperm) as [disk Hloop].
  assert (get_disk_info p = Return disk) as Hdisk.
  { unfold get_disk_info. by rewrite Hparts. }
  exists disk. split; [done |].
  apply get_disk_info_inv in Hdisk as (parts' & Hparts' & _ & Hnd & Hkeys & Hlen).
  rewrite Hparts in Hparts'. injection Hparts' as <-.
  split_and!; [done | done | done |].
  intros Hdev. rewrite Hlen, size_list_to_set by done. by rewrite length_map.
Qed.

(** C3, witness: five mounts on five devices, two refused, three entries. *)
Lemma disk_partial_success_witness :
  exists disk,
    get_disk_info (Host.with_partitions Host.partitions' Host.host) = Return disk /\
    length disk = 3%nat.
Proof.
  destruct (disk_partial_success (Host.with_partitions Host.partitions' Host.host)
              Host.partitions' eq_refl
              (only_permission_failures_check
                 (Host.with_partitions Host.partitions' Host.host) Host.partitions' eq_refl))
    as (disk & Hdisk & _ & _ & _ & Hlen).
  exists disk. split; [exact Hdisk |].
  rewrite Hlen; [reflexivity |].
  apply (bool_decide_unpack _). reflexivity.
Defined.

(** C4, counterexample: on a host that refuses the CPU times the system,
    memory, disk, network and process collectors all return, yet the pass
    assembles no snapshot: no entry stands for any of them. *)
Lemma failing_pass_assembles_no_snapshot :
  returns (get_system_info 2000 (Host.restricted Host.host)) /\
  returns (get_memory_info (Host.restricted Host.host)) /\
  returns (get_disk_info (Host.restricted Host.host)) /\
  returns (get_network_info (Host.restricted Host.host)) /\
  returns (get_top_processes (Host.restricted Host.host) 5) /\
  forall data, monitor 2000 (Host.restricted Host.host) <> Return data.
Proof.
  split_and!; try (by eexists). intros data H. discriminate H.
Qed.

(** C4 (amended): a pass assembles a snapshot exactly when each of the six
    collectors [monitor] calls returns.  The snapshot then has, next to the
    timestamp, exactly six entries under distinct keys: ["system"] and the
    five resource domains, each holding what its collector returned for
    this pass. *)
Theorem one_entry_per_collector (now : Q) (p : Platform) :
  (returns (monitor now p) <->
     returns (get_system_info now p) /\ returns (get_cpu_info p) /\
     returns (get_memory_info p) /\ returns (get_disk_info p) /\
     returns (get_network_info p) /\ returns (get_top_processes p 5)) /\
  (forall data,
     monitor now p = Return data ->
     keys data = "timestamp"%string :: "system"%string :: resource_domains /\
     keys (domains data) = "system"%string :: resource_domains /\
     NoDup (keys data) /\
     length (domains data) = S (length resource_domains) /\
     exists system cpu memory disk network processes,
       (get_system_info now p = Return system /\
        dict_get "system" data = Some (VSystem system)) /\
       (get_cpu_info p = Return cpu /\
        dict_get "cpu" data = Some (VCpu cpu)) /\
       (get_memory_info p = Return memory /\
        dict_get "memory" data = Some (VMemory memory)) /\
       (get_disk_info p = Return disk /\
        dict_get "disk" data = Some (VDisk disk)) /\
       (get_network_info p = Return network /\
        dict_get "network" data = Some (VNetwork network)) /\
       (get_top_processes p 5 = Return processes /\
        dict_get "processes" data = Some (VProcesses processes))).
Proof.
  split.
  - unfold monitor. split.
    + intros H.
      repeat (apply returns_bind in H as (? & ? & H)).
      split_and!; by eexists.
    + intros ([? H1] & [? H2] & [? H3] & [? H4] & [? H5] & [? H6]).
      rewrite H1, H2, H3, H4, H5, H6. simpl. by eexists.
  - intros data H. unfold monitor in H.
    apply bind_Return_inv in H as (system & Hsystem & H).
    apply bind_Return_inv in H as (cpu & Hcpu & H).
    apply bind_Return_inv in H as (memory & Hmemory & H).
    apply bind_Return_inv in H as (disk & Hdisk & H).
    apply bind_Return_inv in H as (network & Hnetwork & H).
    apply bind_Return_inv in H as (processes & Hprocesses & H).
    injection H as <-. split_and!.
    + reflexivity.
    + reflexivity.
    + apply (bool_decide_unpack _). reflexivity.
    + reflexivity.
    + exists system, cpu, memory, disk, network, processes.
      split_and!; done.
Qed.

(** ** The log file and the summary *)

(** Reduce the projections of a world that is written out. *)
Tactic Notation "fields" := cbn [sigint clock files stdout].
Tactic Notation "fields" "in" "*" := cbn [sigint clock files stdout] in *.
Tactic Notation "fields" "in" hyp(H) := cbn [sigint clock files stdout] in H.

(** C4, witness: the snapshot of [host] has six entries next to the
    timestamp. *)
Lemma one_entry_per_collector_witness :
  exists data,
    monitor 2000 Host.host = Return data /\
    length (domains data) = 6%nat.
Proof.
  eexists. split; [reflexivity |].
  destruct (one_entry_per_collector 2000 Host.host) as [_ H].
  destruct (H _ eq_refl) as (_ & _ & _ & Hlen & _). exact Hlen.
Defined.

(** C10: [log_monitoring_data] only appends.  What the log file held before
    the call is a prefix of what it holds after, no other file changes, and
    when the call returns the file has grown by the record of the
    snapshot. *)
Theorem log_only_appends (self : SystemMonitor.t) (data : dict Value) (w : World) :
  let w' := (log_monitoring_data self data w).1 in
  content (log_file self) w `prefix_of` content (log_file self) w' /\
  (forall path, path <> log_file self -> files w' !! path = files w !! path) /\
  ((log_monitoring_data self data w).2 = Return tt ->
   content (log_file self) w' = content (log_file self) w ++ log_record data).
Proof.
  unfold log_monitoring_data, append_file, content.
  destruct w as [c f o [[|k]|]]; simpl.
  - split_and!; [done | done | discriminate].
  - split_and!.
    + rewrite lookup_insert_eq. simpl. by eexists.
    + intros path Hp. by rewrite lookup_insert_ne.
    + intros _. by rewrite lookup_insert_eq.
  - split_and!.
    + rewrite lookup_insert_eq. simpl. by eexists.
    + intros path Hp. by rewrite lookup_insert_ne.
    + intros _. by rewrite lookup_insert_eq.
Qed.

(** C10, witness: a second record goes behind the first. *)
Lemma log_only_appends_witness :
  content "system_monitor.log"
    (log_monitoring_data {| log_file := "system_monitor.log" |} []
       {| clock := 0; files := {[ "system_monitor.log"%string := log_record [] ]};
          stdout := []; sigint := None |}).1
  = log_record [] ++ log_record [].
Proof.
  destruct (log_only_appends {| log_file := "system_monitor.log" |} []
              {| clock := 0; files := {[ "system_monitor.log"%string := log_record [] ]};
                 stdout := []; sigint := None |}) as (_ & _ & H).
  exact (H eq_refl).
Defined.

Lemma io_bind_ext {A B : Type} (m : IO A) (k1 k2 : A -> IO B) (w : World) :
  (forall a w', k1 a w' = k2 a w') -> (m ≫= k1) w = (m ≫= k2) w.
Proof.
  intros H. unfold mbind, IO_bind, io_bind. destruct (m w) as [w' [a|e]]; [apply H | done].
Qed.

Lemma io_bind_assoc {A B C : Type} (m : IO A) (k1 : A -> IO B) (k2 : B -> IO C) (w : World) :
  ((m ≫= k1) ≫= k2) w = (m ≫= fun a => k1 a ≫= k2) w.
Proof.
  unfold mbind, IO_bind, io_bind. destruct (m w) as [w' [a|e]]; [| done].
  by destruct (k1 a w') as [w'' [b|e]].
Qed.

Lemma io_bind_ret_unit (m : IO unit) (w : World) : (m;; mret tt) w = m w.
Proof.
  unfold mbind, IO_bind, io_bind. by destruct (m w) as [w' [[]|e]].
Qed.

Lemma for_each_app {A : Type} (l1 l2 : list A) (body : A -> IO unit) (w : World) :
  for_each (l1 ++ l2) body w = (for_each l1 body;; for_each l2 body) w.
Proof.
  revert w. induction l1 as [|x l1 IH]; intros w; simpl; [done |].
  rewrite io_bind_assoc. apply io_bind_ext. intros _ w'. apply IH.
Qed.

Lemma script_print t : script (print t) [t].
Proof. intros w. simpl. by rewrite io_bind_ret_unit. Qed.

Lemma script_bind m1 m2 l1 l2 :
  script m1 l1 -> script m2 l2 -> script (m1;; m2) (l1 ++ l2).
Proof.
  intros H1 H2 w. rewrite for_each_app.
  unfold mbind, IO_bind, io_bind. rewrite H1.
  destruct (for_each l1 print w) as [w' [[]|e]]; [apply H2 | done].
Qed.

Lemma script_cons t m l : script m l -> script (print t;; m) (t :: l).
Proof. intros H. apply (script_bind _ _ [t] l); [apply script_print | done]. Qed.

Lemma script_lift {A : Type} (r : result A) (v : A) (k : A -> IO unit) l :
  r = Return v -> script (k v) l -> script (lift r ≫= k) l.
Proof. intros -> H w. apply H. Qed.

Lemma print_eq (t : text) (w : World) :
  print t w
  = match sigint w with
    | Some O =>
        ({| clock := clock w; files := files w; stdout := stdout w; sigint := None |},
         Raise KeyboardInterrupt)
    | Some (S k) =>
        ({| clock := clock w; files := files w; stdout := stdout w ++ [t];
            sigint := Some k |}, Return tt)
    | None =>
        ({| clock := clock w; files := files w; stdout := stdout w ++ [t];
            sigint := None |}, Return tt)
    end.
Proof.
  unfold print, mbind, IO_bind, io_bind, checkpoint, put_stdout.
  by destruct w as [c f o [[|k]|]].
Qed.

(** What a sequence of prints does, with or without a signal on its way. *)
Lemma for_each_print (lines : list text) (w : World) :
  for_each lines print w
  = match sigint w with
    | None =>
        ({| clock := clock w; files := files w; stdout := stdout w ++ lines;
            sigint := None |}, Return tt)
    | Some j =>
        if (j <? length lines)%nat
        then ({| clock := clock w; files := files w; stdout := stdout w ++ take j lines;
                 sigint := None |}, Raise KeyboardInterrupt)
        else ({| clock := clock w; files := files w; stdout := stdout w ++ lines;
                 sigint := Some (j - length lines)%nat |}, Return tt)
    end.
Proof.
  revert w. induction lines as [|t lines IH]; intros [c f o s].
  - destruct s as [j|]; cbn [for_each sigint clock files stdout length].
    + replace (j <? 0)%nat with false by (symmetry; apply Nat.ltb_ge; lia).
      by rewrite app_nil_r, Nat.sub_0_r.
    + by rewrite app_nil_r.
  - cbn [for_each]. unfold mbind, IO_bind, io_bind. rewrite print_eq.
    destruct s as [[|j]|]; cbn [sigint clock files stdout length].
    + replace (0 <? S (length lines))%nat with true by (symmetry; apply Nat.ltb_lt; lia).
      by rewrite take_0, app_nil_r.
    + rewrite IH. fields. rewrite <- !app_assoc.
      change (S j <? S (length lines))%nat with (j <? length lines)%nat.
      by destruct (j <? length lines)%nat.
    + rewrite IH. fields. by rewrite <- app_assoc.
Qed.

Lemma script_run m lines : script m lines -> lines = stdout (m quiet).1.
Proof. intros H. rewrite H, for_each_print. reflexivity. Qed.

Lemma is_script_print t : is_script (print t).
Proof. eexists. apply script_print. Qed.

Lemma is_script_bind m1 m2 : is_script m1 -> is_script m2 -> is_script (m1;; m2).
Proof. intros [l1 H1] [l2 H2]. eexists. by apply script_bind. Qed.

Lemma is_script_lift {A : Type} (r : result A) (v : A) (k : A -> IO unit) :
  r = Return v -> is_script (k v) -> is_script (lift r ≫= k).
Proof. intros Hr [l H]. eexists. by eapply script_lift. Qed.

Lemma is_script_for_each {A : Type} (l : list A) (body : A -> IO unit) :
  (forall x, is_script (body x)) -> is_script (for_each l body).
Proof.
  intros H. induction l as [|x l IH]; simpl.
  - by exists [].
  - by apply is_script_bind.
Qed.

Lemma monitor_shape now p data :
  monitor now p = Return data ->
  exists system cpu memory disk network processes,
    data = [ ("timestamp"%string, VTimestamp (isoformat now));
             ("system"%string, VSystem system); ("cpu"%string, VCpu cpu);
             ("memory"%string, VMemory memory); ("disk"%string, VDisk disk);
             ("network"%string, VNetwork network);
             ("processes"%string, VProcesses processes) ].
Proof.
  unfold monitor. intros H.
  repeat (apply bind_Return_inv in H as (? & _ & H)).
  injection H as <-. by repeat eexists.
Qed.

Lemma print_summary_script now p data :
  monitor now p = Return data -> script (print_summary data) (summary_lines data).
Proof.
  intros H. apply monitor_shape in H as (system & cpu & memory & disk & network & processes & ->).
  assert (is_script (print_summary
    [ ("timestamp"%string, VTimestamp (isoformat now));
      ("system"%string, VSystem system); ("cpu"%string, VCpu cpu);
      ("memory"%string, VMemory memory); ("disk"%string, VDisk disk);
      ("network"%string, VNetwork network);
      ("processes"%string, VProcesses processes) ])) as [lines Hlines].
  { unfold print_summary.
    repeat first
      [ apply is_script_print
      | apply is_script_bind
      | eapply is_script_lift; [reflexivity |]
      | apply is_script_for_each; intros ?
      | match goal with |- is_script (let '(_, _) := ?x in _) => destruct x end ]. }
  unfold summary_lines. by rewrite <- (script_run _ _ Hlines).
Qed.

(** ** One pass of the loop *)

Lemma tick_unfold self env i w :
  tick self env i w
  = match checkpoint w with
    | (w1, Raise e) => (w1, Raise e)
    | (w1, Return _) =>
        match monitor (clock w1) (platform_at env i) with
        | Raise e => (w1, Raise e)
        | Return data =>
            match append_file (log_file self) (log_record data) w1 with
            | (w2, Raise e) => (w2, Raise e)
            | (w2, Return _) =>
                match print_summary data w2 with
                | (w3, Raise e) => (w3, Raise e)
                | (w3, Return _) =>
                    match elapse (busy_at env i) w3 with
                    | (w4, Raise e) => (w4, Raise e)
                    | (w4, Return _) => sleep 5 (oversleep_at env i) w4
                    end
                end
            end
        end
    end.
Proof.
  unfold tick, sample, log_monitoring_data, datetime_now, lift, log_record.
  unfold mbind, IO_bind, io_bind.
  destruct (checkpoint w) as [w1 [[]|e]]; [| done].
  destruct (monitor (clock w1) (platform_at env i)) as [data|e]; [| done].
  destruct (append_file _ _ w1) as [w2 [[]|e]]; [| done].
  destruct (print_summary data w2) as [w3 [[]|e]]; [| done].
  done.
Qed.

Lemma append_file_eq path t w :
  append_file path t w
  = match sigint w with
    | Some O =>
        ({| clock := clock w; files := files w; stdout := stdout w; sigint := None |},
         Raise KeyboardInterrupt)
    | Some (S k) =>
        ({| clock := clock w; files := <[path := content path w ++ t]> (files w);
            stdout := stdout w; sigint := Some k |}, Return tt)
    | None =>
        ({| clock := clock w; files := <[path := content path w ++ t]> (files w);
            stdout := stdout w; sigint := None |}, Return tt)
    end.
Proof.
  unfold append_file, mbind, IO_bind, io_bind, checkpoint, put_file, content.
  by destruct w as [c f o [[|k]|]].
Qed.

Lemma sleep_eq secs extra w :
  sleep secs extra w
  = match sigint w with
    | Some O =>
        ({| clock := clock w; files := files w; stdout := stdout w; sigint := None |},
         Raise KeyboardInterrupt)
    | Some (S k) =>
        ({| clock := (clock w + (secs + extra))%Q; files := files w;
            stdout := stdout w; sigint := Some k |}, Return tt)
    | None =>
        ({| clock := (clock w + (secs + extra))%Q; files := files w;
            stdout := stdout w; sigint := None |}, Return tt)
    end.
Proof.
  unfold sleep, mbind, IO_bind, io_bind, checkpoint, elapse.
  by destruct w as [c f o [[|k]|]].
Qed.

(** A pass that no signal cuts short. *)
Lemma tick_completed self env i w data :
  monitor (clock w) (platform_at env i) = Return data ->
  match sigint w with Some j => (steps_of data <= j)%nat | None => True end ->
  tick self env i w
  = ({| clock := (clock w + busy_at env i + (5 + oversleep_at env i))%Q;
        files := <[log_file self := content (log_file self) w ++ log_record data]> (files w);
        stdout := stdout w ++ summary_lines data;
        sigint := (fun j => (j - steps_of data)%nat) <$> sigint w |}, Return tt).
Proof.
  intros Hdata Hsig. rewrite tick_unfold. unfold steps_of in *.
  pose proof (print_summary_script _ _ _ Hdata) as Hscript.
  destruct w as [c f o [j|]]; fields in *.
  - destruct j as [|[|j]]; [lia | lia |].
    unfold checkpoint; fields. rewrite Hdata.
    rewrite append_file_eq; fields. unfold content at 1.
    cbn [files]. rewrite Hscript, for_each_print; fields.
    replace (j <? length (summary_lines data))%nat with false
      by (symmetry; apply Nat.ltb_ge; lia).
    unfold elapse; fields.
    rewrite sleep_eq; fields.
    destruct (j - length (summary_lines data))%nat as [|k] eqn:Hk; [lia |].
    cbn [fmap option_fmap option_map]. do 3 f_equal. lia.
  - unfold checkpoint; fields. rewrite Hdata.
    rewrite append_file_eq; fields. unfold content at 1.
    cbn [files]. rewrite Hscript, for_each_print; fields.
    unfold elapse; fields.
    by rewrite sleep_eq.
Qed.

(** A pass during which the signal arrives. *)
Lemma tick_interrupted self env i w j data :
  sigint w = Some j ->
  monitor (clock w) (platform_at env i) = Return data ->
  (j < steps_of data)%nat ->
  tick self env i w
  = ({| clock := if decide (j = 2 + length (summary_lines data))%nat
                 then (clock w + busy_at env i)%Q else clock w;
        files := if decide (2 <= j)%nat
                 then <[log_file self := content (log_file self) w ++ log_record data]>
                        (files w)
                 else files w;
        stdout := stdout w ++ take (j - 2) (summary_lines data);
        sigint := None |}, Raise KeyboardInterrupt).
Proof.
  intros Hj Hdata Hsteps. rewrite tick_unfold. unfold steps_of in *.
  pose proof (print_summary_script _ _ _ Hdata) as Hscript.
  destruct w as [c f o s]; fields in *. subst s.
  destruct j as [|[|j]].
  - unfold checkpoint; fields.
    rewrite decide_False, decide_False by lia. by rewrite app_nil_r.
  - unfold checkpoint; fields. rewrite Hdata.
    rewrite append_file_eq; fields.
    rewrite decide_False, decide_False by lia. by rewrite app_nil_r.
  - unfold checkpoint; fields. rewrite Hdata.
    rewrite append_file_eq; fields. unfold content at 1.
    cbn [files]. rewrite Hscript, for_each_print; fields.
    rewrite (decide_True (P := (2 <= S (S j))%nat)) by lia.
    replace (S (S j) - 2)%nat with j by lia.
    destruct (Nat.ltb_spec j (length (summary_lines data))) as [Hlt|Hge].
    + by rewrite decide_False by lia.
    + unfold elapse; fields.
      rewrite sleep_eq; fields.
      replace (j - length (summary_lines data))%nat with O by lia.
      rewrite decide_True by lia. by rewrite take_ge by lia.
Qed.

Lemma tick_first_step self env i w :
  sigint w = Some O ->
  tick self env i w
  = ({| clock := clock w; files := files w; stdout := stdout w; sigint := None |},
     Raise KeyboardInterrupt).
Proof.
  intros H. rewrite tick_unfold. unfold checkpoint. by rewrite H.
Qed.

Lemma tick_sample_fails self env i w e :
  sigint w <> Some O ->
  monitor (clock w) (platform_at env i) = Raise e ->
  (tick self env i w).2 = Raise e.
Proof.
  intros Hs He. rewrite tick_unfold. unfold checkpoint.
  destruct w as [c f o [[|k]|]]; fields in *;
    [done | by rewrite He | by rewrite He].
Qed.

Lemma tick_returns_inv self env i w w' :
  tick self env i w = (w', Return tt) ->
  exists data,
    monitor (clock w) (platform_at env i) = Return data /\
    match sigint w with Some j => (steps_of data <= j)%nat | None => True end /\
    w' = {| clock := (clock w + busy_at env i + (5 + oversleep_at env i))%Q;
            files := <[log_file self := content (log_file self) w ++ log_record data]>
                       (files w);
            stdout := stdout w ++ summary_lines data;
            sigint := (fun j => (j - steps_of data)%nat) <$> sigint w |}.
Proof.
  intros H.
  destruct (decide (sigint w = Some O)) as [H0|H0].
  { rewrite tick_first_step in H by done. discriminate. }
  destruct (monitor (clock w) (platform_at env i)) as [data|e] eqn:Hdata.
  2:{ pose proof (tick_sample_fails self env i w e H0 Hdata) as He.
      rewrite H in He. discriminate. }
  exists data. split; [done |].
  assert (match sigint w with Some j => (steps_of data <= j)%nat | None => True end) as Hs.
  { destruct (sigint w) as [j|] eqn:Hj; [| done].
    destruct (decide (j < steps_of data)%nat) as [Hlt|]; [| lia].
    rewrite (tick_interrupted self env i w j data Hj Hdata Hlt) in H. discriminate. }
  split; [done |].
  rewrite (tick_completed self env i w data Hdata Hs) in H. by injection H as <-.
Qed.

Lemma loop_app self env n m i w :
  loop self env (n + m) i w
  = match loop self env n i w with
    | (w', None) => loop self env m (i + n) w'
    | (w', Some e) => (w', Some e)
    end.
Proof.
  revert i w. induction n as [|n IH]; intros i w; simpl.
  - by rewrite Nat.add_0_r.
  - destruct (tick self env i w) as [w' [[]|e]]; [| done].
    rewrite IH. by replace (S i + n)%nat with (i + S n)%nat by lia.
Qed.

Lemma loop_clock self env n i w wn :
  loop self env n i w = (wn, None) -> (clock wn == clock w + elapsed env i n)%Q.
Proof.
  revert i w. induction n as [|n IH]; intros i w; simpl.
  - intros [= <-]. lra.
  - destruct (tick self env i w) as [w' [[]|e]] eqn:Htick; [| discriminate].
    intros Hloop. apply IH in Hloop. rewrite Hloop.
    apply tick_returns_inv in Htick as (data & _ & _ & ->). simpl. lra.
Qed.

(** C7, counterexample: a pass that takes two seconds and sleeps five starts
    at 2000; the next start is 7 seconds later, not 5. *)
Lemma spacing_includes_processing_time :
  exists w',
    tick {| log_file := "system_monitor.log" |} Host.env 0 (Host.world None)
    = (w', Return tt) /\
    (clock w' - clock (Host.world None) == 7)%Q /\
    ~ (clock w' - clock (Host.world None) == 5)%Q.
Proof.
  eexists. split; [vm_compute; reflexivity |]. split; [reflexivity | discriminate].
Qed.

(** C7 (amended): the loop is fixed-delay.  From the start of a pass, whose
    instant is the timestamp of its snapshot, to the start of the next
    there is the time the pass takes plus the sleep of 5 seconds (and what
    the sleep overshoots); over [n] passes these times add up. *)
Theorem fixed_delay_spacing (self : SystemMonitor.t) (env : Env) (i : nat) (w : World) :
  (forall w',
     tick self env i w = (w', Return tt) ->
     (clock w' == clock w + busy_at env i + 5 + oversleep_at env i)%Q /\
     exists data,
       monitor (clock w) (platform_at env i) = Return data /\
       dict_get "timestamp" data = Some (VTimestamp (isoformat (clock w)))) /\
  (forall n wn,
     loop self env n i w = (wn, None) ->
     (clock wn == clock w + elapsed env i n)%Q).
Proof.
  split.
  - intros w' H. apply tick_returns_inv in H as (data & Hdata & _ & ->). split.
    + simpl. lra.
    + exists data. split; [done |].
      apply monitor_shape in Hdata as (? & ? & ? & ? & ? & ? & ->). reflexivity.
  - intros n wn. apply loop_clock.
Qed.

(** C7, witness: three passes of two seconds each take 21 seconds. *)
Lemma fixed_delay_spacing_witness :
  exists wn,
    loop {| log_file := "system_monitor.log" |} Host.env 3 0 (Host.world None) = (wn, None) /\
    (clock wn == clock (Host.world None) + 21)%Q.
Proof.
  eexists. split; [vm_compute; reflexivity |].
  destruct (fixed_delay_spacing {| log_file := "system_monitor.log" |} Host.env 0
              (Host.world None)) as [_ H].
  rewrite (H 3%nat _ ltac:(vm_compute; reflexivity)). reflexivity.
Defined.

(** ** Interruption *)

(** Once a signal is on its way the loop ends: every pass that completes
    uses up at least three steps. *)
Lemma loop_ends self env fuel i w j :
  sigint w = Some j -> (j < fuel)%nat ->
  exists w' e, loop self env fuel i w = (w', Some e).
Proof.
  revert i w j. induction fuel as [|fuel IH]; intros i w j Hj Hfuel; [lia |].
  simpl. destruct (tick self env i w) as [w' [[]|e]] eqn:Htick; [| by eauto].
  apply tick_returns_inv in Htick as (data & _ & Hsteps & ->).
  rewrite Hj in Hsteps. unfold steps_of in Hsteps.
  apply (IH _ _ (j - steps_of data)%nat).
  - cbn [sigint]. by rewrite Hj.
  - unfold steps_of. lia.
Qed.

Lemma startup_sigint w w1 self j :
  startup w = (w1, Return self) -> sigint w = Some j ->
  sigint w1 = Some (j - 2)%nat /\ (2 <= j)%nat.
Proof.
  unfold startup, init, ensure_log_file, touch.
  unfold mbind, IO_bind, io_bind, mret, IO_ret, io_ret. rewrite !print_eq.
  destruct w as [c f o s]; fields. intros H ->.
  destruct j as [|[|j]]; fields in H; try discriminate.
  injection H as <- _. cbn [sigint]. split; [f_equal |]; lia.
Qed.

Lemma main_ends env fuel w j :
  sigint w = Some j -> (j < fuel)%nat -> exists w' r, main env fuel w = (w', Some r).
Proof.
  intros Hj Hfuel. unfold main.
  destruct (startup w) as [w1 [self|e]] eqn:Hstart; [| by eauto].
  destruct (startup_sigint _ _ _ _ Hstart Hj) as [Hj1 Hle].
  destruct (loop_ends self env fuel 0 w1 (j - 2)%nat Hj1 ltac:(lia)) as (w2 & e & ->).
  destruct (isinstance e KeyboardInterrupt); [| by eauto].
  destruct (print stop_message w2) as [w3 r]. by eauto.
Qed.

(** C8, counterexample: the signal arrives when the first pass has logged
    its snapshot and printed one line of the summary.  [main] returns with
    the snapshot in the log, one summary line of several on the screen, and
    the stop message: the pass was not completed. *)
Lemma interrupted_tick_left_unfinished :
  exists w data,
    main Host.env 3 (Host.world (Some 5%nat)) = (w, Some (Return tt)) /\
    monitor 2000 Host.host = Return data /\
    content "system_monitor.log" w = log_record data /\
    stdout w = [ [Str "System Monitoring Started"];
                 [Str "Press Ctrl+C to stop monitoring"; Str NL] ]
               ++ take 1 (summary_lines data) ++ [stop_message] /\
    (1 < length (summary_lines data))%nat.
Proof.
  eexists. eexists. split; [vm_compute; reflexivity |].
  split; [vm_compute; reflexivity |].
  split; [vm_compute; reflexivity |].
  split; [vm_compute; reflexivity | vm_compute; lia].
Qed.

(** C8 (amended): a signal that arrives during a pass ends the pass there.
    The steps of the pass that ran before it keep their effect (the record
    is in the log when the write had run, the summary lines printed are
    those printed so far), the remaining steps do not run, [main] prints
    the stop message and returns.  And once a signal is on its way [main]
    ends, by returning or by a failure. *)
Theorem interrupt_abandons_tick (env : Env) (fuel : nat) (w0 : World) :
  (forall self w1 n wn j data,
     startup w0 = (w1, Return self) ->
     loop self env n 0 w1 = (wn, None) ->
     sigint wn = Some j ->
     monitor (clock wn) (platform_at env n) = Return data ->
     (j < steps_of data)%nat ->
     (n < fuel)%nat ->
     main env fuel w0
     = ({| clock := if decide (j = 2 + length (summary_lines data))%nat
                    then (clock wn + busy_at env n)%Q else clock wn;
           files := if decide (2 <= j)%nat
                    then <[log_file self
                           := content (log_file self) wn ++ log_record data]> (files wn)
                    else files wn;
           stdout := stdout wn ++ take (j - 2) (summary_lines data) ++ [stop_message];
           sigint := None |}, Some (Return tt))) /\
  (forall j, sigint w0 = Some j -> (j < fuel)%nat ->
             exists w r, main env fuel w0 = (w, Some r)).
Proof.
  split.
  - intros self w1 n wn j data Hstart Hloop Hj Hdata Hsteps Hfuel.
    unfold main. rewrite Hstart.
    replace fuel with (n + S (fuel - S n))%nat by lia.
    rewrite loop_app, Hloop. cbn [loop Nat.add].
    rewrite (tick_interrupted self env _ wn j data Hj Hdata Hsteps).
    cbn [isinstance]. rewrite print_eq. fields.
    by rewrite <- app_assoc.
  - intros j. apply main_ends.
Qed.

(** C8, witness: the signal arrives after the first sampling; nothing is
    logged. *)
Lemma interrupt_abandons_tick_witness :
  exists w, main Host.env 3 (Host.world (Some 3%nat)) = (w, Some (Return tt)) /\
            files w !! "system_monitor.log"%string = Some [].
Proof.
  eexists.
  destruct (interrupt_abandons_tick Host.env 3 (Host.world (Some 3%nat))) as [H _].
  rewrite (H {| log_file := "system_monitor.log" |} _ 0%nat _ 1%nat _
             ltac:(vm_compute; reflexivity) eq_refl eq_refl
             ltac:(vm_compute; reflexivity) ltac:(vm_compute; lia) ltac:(lia)).
  split; [reflexivity | vm_compute; reflexivity].
Defined.

(** * Further properties of the program *)

Import Behaviour.

(** ** What a pass leaves behind *)

Lemma tick_sample_fails_world self env i w e :
  sigint w <> Some O ->
  monitor (clock w) (platform_at env i) = Raise e ->
  tick self env i w = (after_step w, Raise e).
Proof.
  intros Hs He. rewrite tick_unfold. unfold checkpoint, after_step.
  destruct w as [c f o [[|k]|]]; fields in *; [done | by rewrite He | by rewrite He].
Qed.

(** Whatever ends it, a pass adds at most one whole record to its log,
    leaves the other files alone and keeps what is on the screen. *)
Lemma tick_effect self env i w :
  let w' := (tick self env i w).1 in
  (forall path, path <> log_file self -> files w' !! path = files w !! path) /\
  (exists datas, (length datas <= 1)%nat /\
     content (log_file self) w'
     = content (log_file self) w ++ flat_map log_record datas) /\
  stdout w `prefix_of` stdout w'.
Proof.
  destruct (decide (sigint w = Some O)) as [H0|H0].
  { rewrite tick_first_step by done. cbn [fst]. fields. split_and!; [done | | done].
    exists []. split; [simpl; lia |]. unfold content. fields. by rewrite app_nil_r. }
  destruct (monitor (clock w) (platform_at env i)) as [data|e] eqn:Hdata.
  2:{ rewrite (tick_sample_fails_world self env i w e H0 Hdata). cbn [fst].
      unfold after_step. fields. split_and!; [done | | done].
      exists []. split; [simpl; lia |]. unfold content. fields. by rewrite app_nil_r. }
  assert (content (log_file self)
            {| clock := clock w; files := files w; stdout := stdout w; sigint := None |}
          = content (log_file self) w) as Hsame by done.
  destruct (sigint w) as [j|] eqn:Hj.
  - destruct (decide (j < steps_of data)%nat) as [Hlt|Hge].
    + rewrite (tick_interrupted self env i w j data Hj Hdata Hlt). cbn [fst]. fields.
      split_and!.
      * intros path Hp. case_decide; [by rewrite lookup_insert_ne | done].
      * unfold content at 1. fields. case_decide.
        -- exists [data]. split; [done |]. rewrite lookup_insert_eq. simpl.
           by rewrite ?app_nil_r.
        -- exists []. split; [simpl; lia |]. simpl. by rewrite ?app_nil_r.
      * by eexists.
    + rewrite (tick_completed self env i w data Hdata) by (rewrite Hj; lia).
      cbn [fst]. fields. split_and!.
      * intros path Hp. by rewrite lookup_insert_ne.
      * exists [data]. split; [done |]. unfold content at 1. fields.
        rewrite lookup_insert_eq. simpl. by rewrite ?app_nil_r.
      * by eexists.
  - rewrite (tick_completed self env i w data Hdata) by (by rewrite Hj).
    cbn [fst]. fields. split_and!.
    * intros path Hp. by rewrite lookup_insert_ne.
    * exists [data]. split; [done |]. unfold content at 1. fields.
      rewrite lookup_insert_eq. simpl. by rewrite ?app_nil_r.
    * by eexists.
Qed.

Lemma loop_effect self env fuel i w :
  let w' := (loop self env fuel i w).1 in
  (forall path, path <> log_file self -> files w' !! path = files w !! path) /\
  (exists datas, (length datas <= fuel)%nat /\
     content (log_file self) w'
     = content (log_file self) w ++ flat_map log_record datas) /\
  stdout w `prefix_of` stdout w'.
Proof.
  revert i w. induction fuel as [|fuel IH]; intros i w.
  - simpl. split_and!; [done | | done]. exists []. split; [done |]. by rewrite app_nil_r.
  - cbn [loop]. pose proof (tick_effect self env i w) as (Hf & (d1 & Hl1 & Hc) & Ho).
    destruct (tick self env i w) as [w1 [[]|e]]; cbn [fst] in *.
    + specialize (IH (S i) w1) as (Hf' & (d2 & Hl2 & Hc') & Ho').
      split_and!.
      * intros path Hp. by rewrite Hf', Hf.
      * exists (d1 ++ d2). split; [rewrite length_app; lia |].
        by rewrite Hc', Hc, flat_map_app, app_assoc.
      * by etrans.
    + split_and!; [done | | done]. exists d1. split; [lia | done].
Qed.

(** ** Start-up *)

Lemma touch_keeps path w :
  content path (touch path w).1 = content path w /\
  (forall path', path' <> path -> files (touch path w).1 !! path' = files w !! path') /\
  is_Some (files (touch path w).1 !! path).
Proof.
  unfold touch, content. destruct w as [c f o s]. cbn [fst]. fields.
  destruct (f !! path) as [t|] eqn:Hf.
  - split_and!; rewrite ?Hf; try done; try (by eexists); try (f_equal; exact Hf).
  - split_and!; rewrite ?lookup_insert_eq; try done; try (by eexists).
    intros path' Hp. by rewrite lookup_insert_ne.
Qed.

Lemma startup_eq w :
  startup w
  = match sigint w with
    | Some j =>
        if (j <? 2)%nat
        then ({| clock := clock w; files := files (touch log_path w).1;
                 stdout := stdout w ++ take j banner; sigint := None |},
              Raise KeyboardInterrupt)
        else ({| clock := clock w; files := files (touch log_path w).1;
                 stdout := stdout w ++ banner; sigint := Some (j - 2)%nat |},
              Return {| log_file := log_path |})
    | None =>
        ({| clock := clock w; files := files (touch log_path w).1;
            stdout := stdout w ++ banner; sigint := None |},
         Return {| log_file := log_path |})
    end.
Proof.
  unfold startup, init, ensure_log_file.
  unfold mbind, IO_bind, io_bind, mret, IO_ret, io_ret. cbn [log_file].
  change "system_monitor.log"%string with log_path.
  destruct (touch log_path w) as [w1 r] eqn:Ht.
  assert (r = Return tt /\ clock w1 = clock w /\ stdout w1 = stdout w /\
          sigint w1 = sigint w) as (-> & Hc & Ho & Hs).
  { unfold touch in Ht. injection Ht as <- <-. by destruct w. }
  rewrite print_eq, Hs. cbn [fst].
  destruct (sigint w) as [[|[|j]]|]; fields; rewrite ?print_eq; fields;
    cbn [Nat.ltb Nat.leb]; rewrite Hc, Ho, <- ?app_assoc.
  - by rewrite app_nil_r.
  - done.
  - by replace (S (S j) - 2)%nat with j by lia.
  - done.
Qed.

(** X12: a signal that arrives while [main] prints its two first lines is
    outside the [try]: [main] ends with [KeyboardInterrupt], the log file
    exists, the lines printed so far are on the screen, and there is no
    stop message. *)
Theorem interrupt_before_loop_is_not_caught (env : Env) (fuel : nat) (w : World) (j : nat) :
  sigint w = Some j -> (j < 2)%nat ->
  main env fuel w
  = ({| clock := clock w; files := files (touch log_path w).1;
        stdout := stdout w ++ take j banner; sigint := None |},
     Some (Raise KeyboardInterrupt)).
Proof.
  intros Hj Hlt. unfold main. rewrite startup_eq, Hj.
  by rewrite (proj2 (Nat.ltb_lt j 2) Hlt).
Qed.

(** X12, witness: the signal arrives after the first line. *)
Lemma interrupt_before_loop_is_not_caught_witness :
  main Host.env 3 (Host.world (Some 1%nat))
  = ({| clock := 2000; files := {[ log_path := [] ]};
        stdout := [ [Str "System Monitoring Started"] ]; sigint := None |},
     Some (Raise KeyboardInterrupt)).
Proof.
  rewrite (interrupt_before_loop_is_not_caught Host.env 3 (Host.world (Some 1%nat)) 1
             eq_refl ltac:(lia)).
  reflexivity.
Defined.

(** X15: whatever ends it, [main] changes no file but [system_monitor.log];
    what that file held stays at its front, what is added is whole records,
    at most one per pass, and nothing already on the screen is lost. *)
Theorem main_writes_whole_records_to_its_log (env : Env) (fuel : nat) (w : World) :
  let w' := (main env fuel w).1 in
  (forall path, path <> log_path -> files w' !! path = files w !! path) /\
  (exists datas, (length datas <= fuel)%nat /\
     content log_path w' = content log_path w ++ flat_map log_record datas) /\
  stdout w `prefix_of` stdout w'.
Proof.
  unfold main. rewrite startup_eq.
  destruct (touch_keeps log_path w) as (Hc & Hf & _).
  assert (forall o s,
            content log_path {| clock := clock w; files := files (touch log_path w).1;
                                stdout := o; sigint := s |}
            = content log_path w) as Hc' by (intros; exact Hc).
  assert (forall o s (w1 := {| clock := clock w; files := files (touch log_path w).1;
                               stdout := stdout w ++ o; sigint := s |}),
            let w' := (match loop {| log_file := log_path |} env fuel 0 w1 with
                       | (w2, None) => (w2, None)
                       | (w2, Some e) =>
                           if isinstance e KeyboardInterrupt
                           then let (w3, r) := print stop_message w2 in (w3, Some r)
                           else (w2, Some (Raise e))
                       end).1 in
            (forall path, path <> log_path -> files w' !! path = files w !! path) /\
            (exists datas, (length datas <= fuel)%nat /\
               content log_path w' = content log_path w ++ flat_map log_record datas) /\
            stdout w `prefix_of` stdout w') as Hloop.
  { intros o s w1.
    pose proof (loop_effect {| log_file := log_path |} env fuel 0 w1)
      as (Hf2 & (d2 & Hl2 & Hc2) & Ho2). cbn [log_file] in *.
    unfold w1 in Hc2 at 2. rewrite Hc' in Hc2.
    assert (stdout w `prefix_of` stdout w1) as Ho1 by (by eexists).
    destruct (loop _ env fuel 0 w1) as [w2 [e|]]; cbn [fst] in *.
    - destruct (isinstance e KeyboardInterrupt).
      + rewrite print_eq.
        destruct (sigint w2) as [[|k]|]; cbn [fst]; fields.
        * split_and!; [by intros; rewrite Hf2; [apply Hf |] | by eauto | by etrans].
        * split_and!; [by intros; rewrite Hf2; [apply Hf |] | by eauto |].
          etrans; [exact Ho1 |]. etrans; [exact Ho2 |]. by eexists.
        * split_and!; [by intros; rewrite Hf2; [apply Hf |] | by eauto |].
          etrans; [exact Ho1 |]. etrans; [exact Ho2 |]. by eexists.
      + cbn [fst]. split_and!; [by intros; rewrite Hf2; [apply Hf |] | by eauto | by etrans].
    - cbn [fst]. split_and!; [by intros; rewrite Hf2; [apply Hf |] | by eauto | by etrans]. }
  destruct (sigint w) as [j|].
  - destruct (j <? 2)%nat.
    + cbn [fst]. fields. split_and!; [exact Hf | | by eexists].
      exists []. split; [simpl; lia |]. rewrite Hc'. by rewrite app_nil_r.
    + apply Hloop.
  - apply Hloop.
Qed.

(** ** Completed passes *)

Lemma elapsed_succ env i n :
  (elapsed env i (S n)
   == elapsed env i n + (busy_at env (i + n) + 5 + oversleep_at env (i + n)))%Q.
Proof.
  revert i. induction n as [|n IH]; intros i.
  - simpl. rewrite Nat.add_0_r. lra.
  - change (elapsed env i (S (S n)))
      with (busy_at env i + 5 + oversleep_at env i + elapsed env (S i) (S n))%Q.
    rewrite (IH (S i)). simpl. replace (i + S n)%nat with (S (i + n)) by lia. lra.
Qed.

(** X2: after [n] passes that ran to their end the log has grown by exactly
    [n] records and the screen by their summaries, in the order of the
    passes; the [k]-th record is the snapshot taken at the start of its
    pass, and its timestamp is that instant. *)
Theorem log_holds_one_record_per_pass (self : SystemMonitor.t) (env : Env)
    (n i : nat) (w wn : World) :
  loop self env n i w = (wn, None) ->
  exists datas,
    length datas = n /\
    content (log_file self) wn = content (log_file self) w ++ flat_map log_record datas /\
    stdout wn = stdout w ++ flat_map summary_lines datas /\
    (forall k data,
       datas !! k = Some data ->
       exists t,
         (t == clock w + elapsed env i k)%Q /\
         monitor t (platform_at env (i + k)) = Return data /\
         dict_get "timestamp" data = Some (VTimestamp (isoformat t))).
Proof.
  revert i w. induction n as [|n IH]; intros i w; cbn [loop].
  - intros [= <-]. exists []. split_and!; [done | by rewrite app_nil_r | by rewrite app_nil_r |].
    intros k data Hk. by rewrite lookup_nil in Hk.
  - destruct (tick self env i w) as [w1 [[]|e]] eqn:Htick; [| discriminate].
    intros Hloop. apply IH in Hloop as (datas & Hlen & Hc & Ho & Hk).
    apply tick_returns_inv in Htick as (data & Hdata & _ & ->).
    exists (data :: datas). split_and!.
    + simpl. by rewrite Hlen.
    + rewrite Hc. unfold content at 1. fields. rewrite lookup_insert_eq. simpl.
      by rewrite <- app_assoc.
    + rewrite Ho. fields. simpl. by rewrite <- app_assoc.
    + intros [|k] data' Hk'.
      * injection Hk' as <-. exists (clock w). split_and!.
        -- simpl. lra.
        -- by rewrite Nat.add_0_r.
        -- apply monitor_shape in Hdata as (? & ? & ? & ? & ? & ? & ->). reflexivity.
      * destruct (Hk k data' Hk') as (t & Ht & Hm & Hts). exists t. split_and!.
        -- rewrite Ht. fields.
           change (elapsed env i (S k))
             with (busy_at env i + 5 + oversleep_at env i + elapsed env (S i) k)%Q.
           lra.
        -- by replace (i + S k)%nat with (S i + k)%nat by lia.
        -- done.
Qed.

(** X2, witness: two passes on [host]. *)
Lemma log_holds_one_record_per_pass_witness :
  exists wn,
    loop {| log_file := log_path |} Host.env 2 0 (Host.world None) = (wn, None) /\
    exists datas,
      length datas = 2%nat /\
      content log_path wn = flat_map log_record datas.
Proof.
  eexists. split; [vm_compute; reflexivity |].
  destruct (log_holds_one_record_per_pass {| log_file := log_path |} Host.env 2 0
              (Host.world None) _ ltac:(vm_compute; reflexivity))
    as (datas & Hlen & Hc & _).
  exists datas. split; [exact Hlen | exact Hc].
Defined.

Lemma elapsed_ge env i n :
  (forall k, (0 <= busy_at env k)%Q /\ (0 <= oversleep_at env k)%Q) ->
  (5 * inject_Z (Z.of_nat n) <= elapsed env i n)%Q.
Proof.
  intros Hpos. revert i. induction n as [|n IH]; intros i.
  - discriminate.
  - cbn [elapsed]. specialize (IH (S i)). destruct (Hpos i) as [Hb Ho].
    rewrite Nat2Z.inj_succ. unfold Z.succ. rewrite inject_Z_plus.
    change (inject_Z 1) with 1%Q. lra.
Qed.

(** X16: when no pass and no sleep takes negative time, [n] passes take at
    least [5 * n] seconds: snapshots are never closer than 5 seconds. *)
Theorem passes_are_five_seconds_apart (self : SystemMonitor.t) (env : Env)
    (n i : nat) (w wn : World) :
  (forall k, (0 <= busy_at env k)%Q /\ (0 <= oversleep_at env k)%Q) ->
  loop self env n i w = (wn, None) ->
  (clock w + 5 * inject_Z (Z.of_nat n) <= clock wn)%Q.
Proof.
  intros Hpos Hloop. apply loop_clock in Hloop. rewrite Hloop.
  pose proof (elapsed_ge env i n Hpos). lra.
Qed.

(** X16, witness: two passes on [host]. *)
Lemma passes_are_five_seconds_apart_witness :
  exists wn,
    loop {| log_file := log_path |} Host.env 2 0 (Host.world None) = (wn, None) /\
    (clock (Host.world None) + 5 * inject_Z (Z.of_nat 2) <= clock wn)%Q.
Proof.
  eexists. split; [vm_compute; reflexivity |].
  apply (passes_are_five_seconds_apart {| log_file := log_path |} Host.env 2 0).
  - intros k. split; discriminate.
  - vm_compute; reflexivity.
Defined.

(** ** Failing and unending runs *)

(** X13: a failure of a collector in pass [n] ends [main] with that
    exception: the passes before it keep their effect, nothing of pass [n]
    is logged or printed, and no stop message is printed. *)
Theorem collector_failure_ends_main (env : Env) (fuel n : nat)
    (w0 w1 wn : World) (self : SystemMonitor.t) (e : exn) :
  startup w0 = (w1, Return self) ->
  loop self env n 0 w1 = (wn, None) ->
  sigint wn <> Some O ->
  monitor (clock wn) (platform_at env n) = Raise e ->
  isinstance e KeyboardInterrupt = false ->
  (n < fuel)%nat ->
  main env fuel w0 = (after_step wn, Some (Raise e)).
Proof.
  intros Hstart Hloop Hs He Hki Hfuel. unfold main. rewrite Hstart.
  replace fuel with (n + S (fuel - S n))%nat by lia.
  rewrite loop_app, Hloop. cbn [loop Nat.add].
  rewrite (tick_sample_fails_world self env n wn e Hs He). by rewrite Hki.
Qed.

(** X13, witness: the CPU times are refused from the second pass on. *)
Lemma collector_failure_ends_main_witness :
  (main failing_env 3 (Host.world None)).2 = Some (Raise PermissionError).
Proof.
  erewrite (collector_failure_ends_main failing_env 3 1 (Host.world None) _ _
              {| log_file := log_path |} PermissionError);
    [ reflexivity
    | vm_compute; reflexivity
    | vm_compute; reflexivity
    | vm_compute; discriminate
    | vm_compute; reflexivity
    | reflexivity
    | lia ].
Defined.

(** X14: [main] returns only through its handler: when it returns, its
    loop was ended by a [KeyboardInterrupt], nothing was done after the
    loop but printing the stop message, and that message is the last thing
    on the screen. *)
Theorem main_returns_only_through_its_handler (env : Env) (fuel : nat) (w w' : World) :
  main env fuel w = (w', Some (Return tt)) ->
  last (stdout w') = Some stop_message /\
  exists w2 e,
    loop {| log_file := log_path |} env fuel 0 (startup w).1 = (w2, Some e) /\
    isinstance e KeyboardInterrupt = true /\
    stdout w' = stdout w2 ++ [stop_message] /\
    files w' = files w2 /\
    clock w' = clock w2.
Proof.
  unfold main. intros H.
  destruct (startup w) as [w1 [self | e0]] eqn:Hstart; [| discriminate H].
  assert (self = {| log_file := log_path |}) as ->.
  { rewrite startup_eq in Hstart.
    destruct (sigint w) as [j |]; [destruct (j <? 2)%nat |];
      try discriminate Hstart; by injection Hstart as _ <-. }
  cbn [fst].
  destruct (loop {| log_file := log_path |} env fuel 0 w1) as [w2 [e |]] eqn:Hloop;
    [| discriminate H].
  destruct (isinstance e KeyboardInterrupt) eqn:He; [| discriminate H].
  rewrite print_eq in H.
  assert (stdout w' = stdout w2 ++ [stop_message] /\ files w' = files w2 /\
          clock w' = clock w2) as (Hout & Hfiles & Hclock).
  { destruct (sigint w2) as [[| k] |]; [discriminate H | |];
      injection H as <-; by fields. }
  split.
  - rewrite Hout. apply last_snoc.
  - by exists w2, e.
Qed.

(** X14, witness: the signal arrives after the first sampling. *)
Lemma main_returns_only_through_its_handler_witness :
  exists w',
    main Host.env 3 (Host.world (Some 3%nat)) = (w', Some (Return tt)) /\
    last (stdout w') = Some stop_message.
Proof.
  destruct (main Host.env 3 (Host.world (Some 3%nat))) as [w' r] eqn:Hmain.
  assert (r = Some (Return tt)) as ->.
  { apply (f_equal snd) in Hmain. vm_compute in Hmain. by symmetry. }
  exists w'. split; [reflexivity |].
  exact (proj1 (main_returns_only_through_its_handler Host.env 3
                  (Host.world (Some 3%nat)) w' Hmain)).
Defined.

(** ** The summary *)

Lemma only_prints_print t : only_prints (print t).
Proof.
  intros w w' r. rewrite print_eq.
  destruct (sigint w) as [[|k]|]; intros [= <- <-]; fields;
    (split_and!; [done | done |]); first [done | by eexists].
Qed.

Lemma only_prints_lift {A : Type} (r : result A) : only_prints (lift r).
Proof. intros w w' r' [= <- <-]. done. Qed.

Lemma only_prints_ret {A : Type} (a : A) : only_prints (mret a : IO A).
Proof. intros w w' r' [= <- <-]. done. Qed.

Lemma only_prints_bind {A B : Type} (m : IO A) (k : A -> IO B) :
  only_prints m -> (forall a, only_prints (k a)) -> only_prints (m ≫= k).
Proof.
  intros Hm Hk w w' r. unfold mbind, IO_bind, io_bind.
  destruct (m w) as [w1 [a|e]] eqn:Hmw.
  - intros Hkw. destruct (Hm _ _ _ Hmw) as (Hc & Hf & Ho).
    destruct (Hk a _ _ _ Hkw) as (Hc' & Hf' & Ho').
    split_and!; [congruence | congruence | by etrans].
  - intros [= <- <-]. by apply (Hm _ _ _ Hmw).
Qed.

Lemma only_prints_for_each {A : Type} (l : list A) (body : A -> IO unit) :
  (forall x, only_prints (body x)) -> only_prints (for_each l body).
Proof.
  intros H. induction l as [|x l IH]; simpl.
  - apply only_prints_ret.
  - apply only_prints_bind; [apply H | intros _; apply IH].
Qed.

Lemma print_summary_only_prints data : only_prints (print_summary data).
Proof.
  unfold print_summary.
  repeat first
    [ apply only_prints_print
    | apply only_prints_lift
    | apply only_prints_bind; [| intros ?]
    | apply only_prints_for_each; intros ?
    | match goal with |- only_prints (let '(_, _) := ?x in _) => destruct x end ].
Qed.

(** X5: [print_summary], on any dictionary and however it ends, changes no
    file and not the clock, and keeps what was on the screen. *)
Theorem print_summary_changes_only_the_screen (data : dict Value) (w : World) :
  let w' := (print_summary data w).1 in
  clock w' = clock w /\ files w' = files w /\ stdout w `prefix_of` stdout w'.
Proof.
  destruct (print_summary data w) as [w' r] eqn:H.
  exact (print_summary_only_prints data w w' r H).
Qed.



Lemma print_then {A : Type} (t : text) (m : IO A) (w : World) :
  sigint w = None ->
  (print t;; m) w
  = m {| clock := clock w; files := files w; stdout := stdout w ++ [t]; sigint := None |}.
Proof.
  intros Hs. unfold mbind, IO_bind, io_bind. by rewrite print_eq, Hs.
Qed.

Lemma lift_then {A B : Type} (r : result A) (k : A -> IO B) (w : World) :
  (lift r ≫= k) w
  = match r with
    | Return v => k v w
    | Raise e => (w, Raise e)
    end.
Proof. unfold mbind, IO_bind, io_bind, lift. by destruct r. Qed.

(** X6: on a dictionary without ["timestamp"], [print_summary] prints the
    opening rule and raises [KeyError]; with the timestamp but without
    ["cpu"] it prints the three lines of the heading and raises
    [KeyError]. *)
Theorem print_summary_missing_key (data : dict Value) (w : World) :
  sigint w = None ->
  (dict_get "timestamp" data = None ->
   print_summary data w
   = ({| clock := clock w; files := files w;
         stdout := stdout w ++ [[Str NL; Str rule]]; sigint := None |},
      Raise KeyError)) /\
  (forall timestamp,
     dict_get "timestamp" data = Some (VTimestamp timestamp) ->
     dict_get "cpu" data = None ->
     print_summary data w
     = ({| clock := clock w; files := files w;
           stdout := stdout w ++ [ [Str NL; Str rule];
                                   [Str "SYSTEM MONITORING REPORT - "; IsoStr timestamp];
                                   [Str rule] ];
           sigint := None |},
        Raise KeyError)).
Proof.
  intros Hs. split.
  - intros Hts. unfold print_summary, getitem. rewrite Hts.
    rewrite print_then by done. by rewrite lift_then.
  - intros timestamp Hts Hcpu. unfold print_summary, getitem. rewrite Hts, Hcpu.
    rewrite print_then by done. rewrite lift_then. cbn [mbind result_bind bind as_timestamp].
    rewrite print_then by done. fields.
    rewrite print_then by done. fields.
    rewrite lift_then. cbn [mbind result_bind bind].
    by rewrite <- !app_assoc.
Qed.

(** X6, witness: the empty dictionary. *)
Lemma print_summary_missing_key_witness :
  print_summary [] (Host.world None)
  = ({| clock := 2000; files := ∅; stdout := [[Str NL; Str rule]]; sigint := None |},
     Raise KeyError).
Proof.
  destruct (print_summary_missing_key [] (Host.world None) eq_refl) as [H _].
  exact (H eq_refl).
Defined.

(** ** How long the summary is *)

Lemma prints_print t : prints (print t) 1.
Proof. exists [t]. split; [apply script_print | done]. Qed.

Lemma prints_bind m1 m2 n1 n2 :
  prints m1 n1 -> prints m2 n2 -> prints (m1;; m2) (n1 + n2).
Proof.
  intros (l1 & H1 & <-) (l2 & H2 & <-). exists (l1 ++ l2).
  split; [by apply script_bind | by rewrite length_app].
Qed.

Lemma prints_lift {A : Type} (r : result A) (v : A) (k : A -> IO unit) n :
  r = Return v -> prints (k v) n -> prints (lift r ≫= k) n.
Proof. intros Hr (l & H & <-). exists l. split; [by eapply script_lift | done]. Qed.

Lemma prints_for_each {A : Type} (l : list A) (body : A -> IO unit) (c : nat) :
  (forall x, prints (body x) c) -> prints (for_each l body) (c * length l).
Proof.
  intros H. induction l as [|x l IH]; simpl.
  - exists []. split; [done | by rewrite Nat.mul_0_r].
  - replace (c * S (length l))%nat with (c + c * length l)%nat by lia.
    by apply prints_bind.
Qed.

Lemma prints_length m n : prints m n -> length (stdout (m quiet).1) = n.
Proof. intros (l & H & <-). by rewrite <- (script_run m l H). Qed.

Lemma summary_lines_length system cpu memory disk network processes ts :
  length (summary_lines
            [ ("timestamp"%string, VTimestamp ts);
              ("system"%string, VSystem system); ("cpu"%string, VCpu cpu);
              ("memory"%string, VMemory memory); ("disk"%string, VDisk disk);
              ("network"%string, VNetwork network);
              ("processes"%string, VProcesses processes) ])
  = (13 + 2 * length disk
     + length (slice_to 3 (TopProcesses.top_cpu_processes processes))
     + length (slice_to 3 (TopProcesses.top_memory_processes processes)))%nat.
Proof.
  unfold summary_lines.
  erewrite prints_length.
  2:{ unfold print_summary.
      repeat first
        [ apply prints_print
        | eapply prints_bind
        | eapply prints_lift; [reflexivity |]
        | eapply prints_for_each; intros [? ?]
        | eapply prints_for_each; intros ? ]. }
  lia.
Qed.

Lemma monitor_inv now p data :
  monitor now p = Return data ->
  exists system cpu memory disk network processes,
    get_system_info now p = Return system /\ get_cpu_info p = Return cpu /\
    get_memory_info p = Return memory /\ get_disk_info p = Return disk /\
    get_network_info p = Return network /\ get_top_processes p 5 = Return processes /\
    data = [ ("timestamp"%string, VTimestamp (isoformat now));
             ("system"%string, VSystem system); ("cpu"%string, VCpu cpu);
             ("memory"%string, VMemory memory); ("disk"%string, VDisk disk);
             ("network"%string, VNetwork network);
             ("processes"%string, VProcesses processes) ].
Proof.
  unfold monitor. intros H.
  apply bind_Return_inv in H as (system & Hs & H).
  apply bind_Return_inv in H as (cpu & Hc & H).
  apply bind_Return_inv in H as (memory & Hm & H).
  apply bind_Return_inv in H as (disk & Hd & H).
  apply bind_Return_inv in H as (network & Hn & H).
  apply bind_Return_inv in H as (processes & Hp & H).
  injection H as <-. exists system, cpu, memory, disk, network, processes.
  by split_and!.
Qed.

(** X3: for a snapshot of [monitor], [print_summary] calls [print] 13
    times whatever the snapshot holds, twice more per disk entry (one entry
    per device of an accessible mount) and, for each of the two process
    lists, once more per process up to three.  (The count is of calls, not
    of lines on the screen: seven of the 13 texts carry a line break of
    their own.) *)
Theorem summary_print_calls (now : Q) (p : Platform) (data : dict Value)
    (parts : list sdiskpart.t) (procs : list (result pinfo.t)) :
  monitor now p = Return data ->
  disk_partitions p = Return parts ->
  process_iter p = Return procs ->
  length (summary_lines data)
  = (13
     + 2 * size (list_to_set (map sdiskpart.device (accessible_mounts p parts)) : gset string)
     + 2 * (3 `min` length (population procs)))%nat.
Proof.
  intros Hdata Hparts Hprocs.
  apply monitor_inv in Hdata
    as (system & cpu & memory & disk & network & processes
        & _ & _ & _ & Hdisk & _ & Htop & ->).
  rewrite summary_lines_length.
  apply get_disk_info_inv in Hdisk as (parts' & Hparts' & _ & _ & _ & Hlen).
  rewrite Hparts in Hparts'. injection Hparts' as <-.
  apply get_top_processes_inv in Htop as (procs' & Hprocs' & Hcpu & Hmem).
  rewrite Hprocs in Hprocs'. injection Hprocs' as <-.
  rewrite Hcpu, Hmem, Hlen.
  rewrite !slice_to_take by lia. rewrite !length_take, !length_sorted. lia.
Qed.

(** X3, witness: [host], with two disk entries and three processes:
    23 calls. *)
Lemma summary_print_calls_witness :
  exists data,
    monitor 2000 Host.host = Return data /\
    length (summary_lines data) = 23%nat.
Proof.
  eexists. split; [reflexivity |].
  rewrite (summary_print_calls 2000 Host.host _ Host.partitions Host.procs
             eq_refl eq_refl eq_refl).
  vm_compute. reflexivity.
Defined.

(** ** Uptime *)

Lemma int_spec (x : Q) :
  ((0 <= x)%Q -> 0 <= int x /\ (inject_Z (int x) <= x)%Q /\ (x < inject_Z (int x) + 1)%Q) /\
  ((x < 0)%Q -> int x <= 0 /\ (x <= inject_Z (int x))%Q /\ (inject_Z (int x) < x + 1)%Q).
Proof.
  unfold int. split.
  - intros Hx. rewrite (proj2 (Qle_bool_iff 0 x) Hx). split_and!.
    + change 0 with (Qfloor 0). by apply Qfloor_resp_le.
    + apply Qfloor_le.
    + pose proof (Qlt_floor x) as H. rewrite inject_Z_plus in H. exact H.
  - intros Hx.
    destruct (Qle_bool 0 x) eqn:E.
    { apply Qle_bool_iff in E. exfalso. by apply (Qlt_not_le x 0). }
    split_and!.
    + change 0 with (Qceiling 0). apply Qceiling_resp_le. by apply Qlt_le_weak.
    + apply Qle_ceiling.
    + pose proof (Qceiling_lt x) as H.
      replace (Qceiling x - 1) with (Qceiling x + -1) in H by lia.
      rewrite inject_Z_plus in H. change (inject_Z (-1)) with (-1)%Q in H. lra.
Qed.

(** X7: [uptime_seconds] is the time since boot cut to whole seconds
    towards zero: not negative and less than a second below the exact time
    when the clock is not before the boot time, not positive and less than
    a second above it otherwise. *)
Theorem uptime_is_whole_seconds_since_boot (now : Q) (p : Platform) (info : SystemInfo.t) :
  get_system_info now p = Return info ->
  exists boot,
    boot_time p = Return boot /\
    SystemInfo.boot_time info = isoformat boot /\
    ((boot <= now)%Q ->
     0 <= SystemInfo.uptime_seconds info /\
     (inject_Z (SystemInfo.uptime_seconds info) <= now - boot)%Q /\
     (now - boot < inject_Z (SystemInfo.uptime_seconds info) + 1)%Q) /\
    ((now < boot)%Q ->
     SystemInfo.uptime_seconds info <= 0 /\
     (now - boot <= inject_Z (SystemInfo.uptime_seconds info))%Q /\
     (inject_Z (SystemInfo.uptime_seconds info) < now - boot + 1)%Q).
Proof.
  unfold get_system_info. intros H.
  apply bind_Return_inv in H as (hostname & _ & H).
  apply bind_Return_inv in H as (boot & Hboot & H).
  apply bind_Return_inv in H as (boot' & Hboot' & H).
  rewrite Hboot in Hboot'. injection Hboot' as <-. injection H as <-.
  exists boot. split; [done |]. split; [done |]. cbn [SystemInfo.uptime_seconds].
  destruct (int_spec (now - boot)) as [Hpos Hneg]. split.
  - intros Hle. apply Hpos. lra.
  - intros Hlt. apply Hneg. lra.
Qed.

(** X7, witness: 1000.5 seconds after boot. *)
Lemma uptime_is_whole_seconds_since_boot_witness :
  exists info,
    get_system_info 2000.5 Host.host = Return info /\
    0 <= SystemInfo.uptime_seconds info /\
    (inject_Z (SystemInfo.uptime_seconds info) <= 2000.5 - 1000)%Q.
Proof.
  eexists. split; [reflexivity |].
  destruct (uptime_is_whole_seconds_since_boot 2000.5 Host.host _ eq_refl)
    as (boot & Hboot & _ & Hpos & _).
  injection Hboot as <-.
  destruct (Hpos ltac:(discriminate)) as (H0 & Hle & _). split; [exact H0 | exact Hle].
Defined.

(** ** Sizes keep their order *)

Lemma round_half_even_mono (n m d : Z) :
  0 < d -> n <= m -> round_half_even n d <= round_half_even m d.
Proof.
  intros Hd Hnm. unfold round_half_even.
  pose proof (Z.div_mod n d ltac:(lia)) as Hn.
  pose proof (Z.div_mod m d ltac:(lia)) as Hm.
  pose proof (Z.mod_pos_bound n d Hd) as Hrn.
  pose proof (Z.mod_pos_bound m d Hd) as Hrm.
  pose proof (Z.div_le_mono n m d Hd Hnm) as Hq.
  destruct (Z.eq_dec (n / d) (m / d)) as [Heq|Hne].
  - rewrite Heq in *.
    destruct (2 * (n mod d) <? d) eqn:E1, (2 * (m mod d) <? d) eqn:E2,
      (d <? 2 * (n mod d)) eqn:E3, (d <? 2 * (m mod d)) eqn:E4,
      (Z.even (m / d)); lia.
  - destruct (2 * (n mod d) <? d), (2 * (m mod d) <? d),
      (d <? 2 * (n mod d)), (d <? 2 * (m mod d)),
      (Z.even (n / d)), (Z.even (m / d)); lia.
Qed.

Lemma round2_mono (n m d : Z) :
  0 < d -> n <= m -> (round2 n d <= round2 m d)%Q.
Proof.
  intros Hd Hnm. unfold round2, Qle. simpl.
  pose proof (round_half_even_mono (n * 100) (m * 100) d Hd ltac:(lia)). lia.
Qed.

Lemma round2_nonneg (n d : Z) : 0 < d -> 0 <= n -> (0 <= round2 n d)%Q.
Proof.
  intros Hd Hn. unfold round2, Qle. simpl.
  pose proof (round_half_even_mono 0 (n * 100) d Hd ltac:(lia)) as H.
  assert (round_half_even 0 d = 0) as H0.
  { unfold round_half_even. rewrite Z.mod_0_l, Z.div_0_l by lia.
    by rewrite (proj2 (Z.ltb_lt (2 * 0) d)) by lia. }
  lia.
Qed.

Lemma last_entry_origin p d parts entry :
  last_entry p d parts = Some entry ->
  exists part usage,
    part ∈ parts /\ sdiskpart.device part = d /\
    disk_usage p (sdiskpart.mountpoint part) = Return usage /\
    entry = disk_entry part usage.
Proof.
  induction parts as [|part rest IH]; simpl; [discriminate |].
  destruct (last_entry p d rest) as [entry'|].
  - intros [= <-]. destruct (IH eq_refl) as (part' & usage & Hin & Hrest).
    exists part', usage. split; [by apply elem_of_cons; right | done].
  - case_decide as Hd; [| discriminate].
    destruct (disk_usage p (sdiskpart.mountpoint part)) as [usage|e] eqn:Hu; [| discriminate].
    intros [= <-]. exists part, usage. split; [by apply elem_of_cons; left | done].
Qed.

(** X8: rounding to gigabytes keeps the order of sizes.  When used,
    available or free is at most the total in the library's sample, the
    same holds between the recorded figures, and a size that is not
    negative is not recorded as negative. *)
Theorem sizes_keep_their_order (p : Platform) :
  (forall info memory swap,
     get_memory_info p = Return info ->
     virtual_memory p = Return memory -> swap_memory p = Return swap ->
     (svmem.used memory <= svmem.total memory ->
      (MemoryInfo.used_memory_gb info <= MemoryInfo.total_memory_gb info)%Q) /\
     (svmem.available memory <= svmem.total memory ->
      (MemoryInfo.available_memory_gb info <= MemoryInfo.total_memory_gb info)%Q) /\
     (sswap.used swap <= sswap.total swap ->
      (MemoryInfo.swap_used_gb info <= MemoryInfo.swap_total_gb info)%Q) /\
     (0 <= svmem.used memory -> (0 <= MemoryInfo.used_memory_gb info)%Q)) /\
  (forall disk device entry usage,
     get_disk_info p = Return disk ->
     dict_get device disk = Some entry ->
     disk_usage p (DiskEntry.mountpoint entry) = Return usage ->
     (sdiskusage.used usage <= sdiskusage.total usage ->
      (DiskEntry.used_gb entry <= DiskEntry.total_gb entry)%Q) /\
     (sdiskusage.free usage <= sdiskusage.total usage ->
      (DiskEntry.free_gb entry <= DiskEntry.total_gb entry)%Q) /\
     (0 <= sdiskusage.used usage -> (0 <= DiskEntry.used_gb entry)%Q)).
Proof.
  split.
  - intros info memory swap Hinfo Hm Hs. unfold get_memory_info in Hinfo.
    rewrite Hm, Hs in Hinfo. injection Hinfo as <-.
    cbn [MemoryInfo.used_memory_gb MemoryInfo.total_memory_gb
         MemoryInfo.available_memory_gb MemoryInfo.swap_used_gb MemoryInfo.swap_total_gb].
    split_and!; intros H; first [by apply round2_mono | by apply round2_nonneg].
  - intros disk device entry usage Hdisk Hget Hu.
    apply get_disk_info_inv in Hdisk as (parts & _ & Hlast & _).
    rewrite Hlast in Hget.
    apply last_entry_origin in Hget as (part & usage' & _ & _ & Hu' & ->).
    cbn [disk_entry DiskEntry.mountpoint] in Hu. rewrite Hu' in Hu. injection Hu as ->.
    cbn [disk_entry DiskEntry.used_gb DiskEntry.total_gb DiskEntry.free_gb].
    split_and!; intros H; first [by apply round2_mono | by apply round2_nonneg].
Qed.

(** X8, witness: the memory of [host]. *)
Lemma sizes_keep_their_order_witness :
  exists info,
    get_memory_info Host.host = Return info /\
    (MemoryInfo.used_memory_gb info <= MemoryInfo.total_memory_gb info)%Q.
Proof.
  eexists. split; [reflexivity |].
  destruct (sizes_keep_their_order Host.host) as [Hmem _].
  destruct (Hmem _ Host.memory Host.swap eq_refl eq_refl eq_refl) as (Hused & _).
  apply Hused. discriminate.
Defined.

(** ** The order of the disk entries *)

Lemma filter_not_in_cons (K : list string) (k : string) (Y : list string) :
  filter (fun y => y ∉ K ++ [k]) Y = filter (fun y => y ∉ K) (filter (fun y => y <> k) Y).
Proof.
  rewrite list_filter_filter. apply list_filter_iff. intros y.
  rewrite elem_of_app, list_elem_of_singleton. tauto.
Qed.

Lemma filter_not_in_absorb (K : list string) (k : string) (Y : list string) :
  k ∈ K ->
  filter (fun y => y ∉ K) (filter (fun y => y <> k) Y) = filter (fun y => y ∉ K) Y.
Proof.
  intros Hk. rewrite list_filter_filter. apply list_filter_iff. intros y.
  split; [tauto |]. intros Hy. split; [done |]. intros ->. done.
Qed.

Lemma disk_loop_keys p parts d0 disk :
  disk_loop p parts d0 = Return disk ->
  keys disk
  = keys d0 ++ filter (fun y => y ∉ keys d0)
                 (first_seen (map sdiskpart.device (accessible_mounts p parts))).
Proof.
  revert d0. induction parts as [|part rest IH]; intros d0; simpl.
  - intros [= <-]. by rewrite app_nil_r.
  - unfold accessible at 1.
    destruct (disk_usage p (sdiskpart.mountpoint part)) as [u|e] eqn:Hu.
    + intros Hloop. apply IH in Hloop. rewrite Hloop.
      fold (accessible_mounts p rest). cbn [map first_seen].
      rewrite keys_dict_set.
      destruct (decide (sdiskpart.device part ∈ keys d0)) as [Hin|Hin].
      * rewrite filter_cons_False by (intros H; by apply H).
        by rewrite filter_not_in_absorb.
      * rewrite filter_cons_True by done.
        rewrite filter_not_in_cons. by rewrite <- app_assoc.
    + destruct (caught_by [PermissionError] e); [| discriminate].
      intros Hloop. by apply IH in Hloop.
Qed.

Lemma first_seen_nil (l : list string) : first_seen l = [] <-> l = [].
Proof. by destruct l. Qed.

(** X9: the entries of the disk dictionary are in the order in which their
    devices are first met among the accessible mounts, and the dictionary
    is empty exactly when no mount is accessible. *)
Theorem disk_entries_in_order_of_first_mount (p : Platform) (parts : list sdiskpart.t)
    (disk : dict DiskEntry.t) :
  disk_partitions p = Return parts ->
  get_disk_info p = Return disk ->
  keys disk = first_seen (map sdiskpart.device (accessible_mounts p parts)) /\
  (disk = [] <-> accessible_mounts p parts = []).
Proof.
  intros Hparts Hdisk. unfold get_disk_info in Hdisk. rewrite Hparts in Hdisk.
  apply disk_loop_keys in Hdisk. simpl in Hdisk.
  assert (keys disk = first_seen (map sdiskpart.device (accessible_mounts p parts))) as Hk.
  { rewrite Hdisk. generalize (first_seen (map sdiskpart.device (accessible_mounts p parts))).
    intros l. induction l as [|y l IHl]; [done |].
    rewrite filter_cons_True by apply not_elem_of_nil. by rewrite IHl. }
  split; [done |]. split.
  - intros ->. simpl in Hk. symmetry in Hk. apply first_seen_nil in Hk.
    by destruct (accessible_mounts p parts).
  - intros Hacc. rewrite Hacc in Hk. simpl in Hk. by destruct disk.
Qed.

(** X9, witness: [/dev/sda2] is met first and again, [/dev/sdc1] last. *)
Lemma disk_entries_in_order_of_first_mount_witness :
  exists disk,
    get_disk_info Host.host = Return disk /\
    keys disk = ["/dev/sda2"; "/dev/sdc1"]%string.
Proof.
  eexists. split; [reflexivity |].
  destruct (disk_entries_in_order_of_first_mount Host.host Host.partitions _
              eq_refl eq_refl) as [Hk _].
  rewrite Hk. reflexivity.
Defined.

(** ** The bounds of [top_n] *)

Lemma slice_to_negative {A : Type} (n : Z) (l : list A) :
  n < 0 -> slice_to n l = take (length l - Z.to_nat (- n)) l.
Proof.
  intros Hn. unfold slice_to. by rewrite (proj2 (Z.leb_gt 0 n) Hn).
Qed.

(** X10: a negative [top_n] does not give empty lists.  Each list is the
    sorted population without its last [-top_n] processes. *)
Theorem negative_top_n_drops_the_last (p : Platform) (top_n : Z)
    (procs : list (result pinfo.t)) (top : TopProcesses.t) :
  top_n < 0 ->
  process_iter p = Return procs ->
  get_top_processes p top_n = Return top ->
  let pop := population procs in
  let top_cpu := TopProcesses.top_cpu_processes top in
  let top_memory := TopProcesses.top_memory_processes top in
  Z.of_nat (length top_cpu) = Z.max 0 (Z.of_nat (length pop) + top_n) /\
  Z.of_nat (length top_memory) = Z.max 0 (Z.of_nat (length pop) + top_n) /\
  top_cpu `prefix_of` sorted pinfo.cpu_percent true pop /\
  top_memory `prefix_of` sorted pinfo.memory_percent true pop.
Proof.
  intros Hn Hprocs Htop.
  apply get_top_processes_inv in Htop as (procs' & Hprocs' & Hcpu & Hmem).
  rewrite Hprocs in Hprocs'. injection Hprocs' as <-.
  intros pop top_cpu top_memory. subst top_cpu top_memory. rewrite Hcpu, Hmem. fold pop.
  rewrite !slice_to_negative by done. rewrite !length_take, !length_sorted.
  split_and!; [lia | lia | apply prefix_take | apply prefix_take].
Qed.

(** X10, witness: [top_n = -1] on three processes leaves two. *)
Lemma negative_top_n_drops_the_last_witness :
  exists top,
    get_top_processes Host.host (-1) = Return top /\
    Z.of_nat (length (TopProcesses.top_cpu_processes top)) = 2.
Proof.
  eexists. split; [reflexivity |].
  exact (proj1 (negative_top_n_drops_the_last Host.host (-1) Host.procs _
                  ltac:(lia) eq_refl eq_refl)).
Defined.

(** X11: with [top_n] at least the number of readable processes, both
    lists hold every readable process, so each is a rearrangement of the
    other. *)
Theorem large_top_n_lists_everything (p : Platform) (top_n : Z)
    (procs : list (result pinfo.t)) (top : TopProcesses.t) :
  Z.of_nat (length (population procs)) <= top_n ->
  process_iter p = Return procs ->
  get_top_processes p top_n = Return top ->
  TopProcesses.top_cpu_processes top ≡ₚ population procs /\
  TopProcesses.top_memory_processes top ≡ₚ population procs /\
  TopProcesses.top_cpu_processes top ≡ₚ TopProcesses.top_memory_processes top.
Proof.
  intros Hn Hprocs Htop.
  apply get_top_processes_inv in Htop as (procs' & Hprocs' & Hcpu & Hmem).
  rewrite Hprocs in Hprocs'. injection Hprocs' as <-.
  rewrite Hcpu, Hmem. rewrite !slice_to_take by lia.
  rewrite !take_ge by (rewrite length_sorted; lia).
  split_and!.
  - apply sorted_perm.
  - apply sorted_perm.
  - by rewrite !sorted_perm.
Qed.

(** X11, witness: five places for the three processes of [host]. *)
Lemma large_top_n_lists_everything_witness :
  exists top,
    get_top_processes Host.host 5 = Return top /\
    TopProcesses.top_cpu_processes top ≡ₚ TopProcesses.top_memory_processes top.
Proof.
  eexists. split; [reflexivity |].
  exact (proj2 (proj2 (large_top_n_lists_everything Host.host 5 Host.procs _
                         ltac:(vm_compute; discriminate) eq_refl eq_refl))).
Defined.

(** X17: the collector compares no pids.  In each top list the processes
    of one metric value are the first of the enumerated processes of that
    value, in the order of the enumeration: the sort is stable, also in
    reverse. *)
Theorem ties_keep_enumeration_order (p : Platform) (K : Z)
    (procs : list (result pinfo.t)) (top : TopProcesses.t) :
  0 <= K ->
  process_iter p = Return procs ->
  get_top_processes p K = Return top ->
  forall v,
    with_key pinfo.cpu_percent v (TopProcesses.top_cpu_processes top)
      `prefix_of` with_key pinfo.cpu_percent v (population procs) /\
    with_key pinfo.memory_percent v (TopProcesses.top_memory_processes top)
      `prefix_of` with_key pinfo.memory_percent v (population procs).
Proof.
  intros HK Hprocs Htop v.
  apply get_top_processes_inv in Htop as (procs' & Hprocs' & Hcpu & Hmem).
  rewrite Hprocs in Hprocs'. injection Hprocs' as <-.
  rewrite Hcpu, Hmem. split; by apply top_stable.
Qed.

(** X17, witness: [init] and [sh] both hold 0.5 percent of the memory and
    are listed as they are enumerated. *)
Lemma ties_keep_enumeration_order_witness :
  exists top,
    get_top_processes Host.host 5 = Return top /\
    with_key pinfo.memory_percent 0.5 (TopProcesses.top_memory_processes top)
      `prefix_of` [Host.init_proc; Host.shell].
Proof.
  eexists. split; [reflexivity |].
  exact (proj2 (ties_keep_enumeration_order Host.host 5 Host.procs _
                  ltac:(lia) eq_refl eq_refl 0.5%Q)).
Defined.
